(** * Project Eidolon graph visualizer: the metric engine, the update queue
      and the ingestion hook of [src/tools/graph_visualizer.py]

    The development embeds the stateful core of the Flask dashboard:
    [GraphVisualizer.get_entities], one pass of [background_updater],
    the shared [update_queue] read by [api_stream_updates], and
    [api_process_prompt] / [process_prompt].

    Modelling conventions.
    - Python [float] values are idealised as exact rationals ([Q]); rounding
      of binary64 arithmetic is not modelled.  Equalities between computed
      amounts are therefore stated with [==] on [Q].
    - An entity or agent [dict] is a record; a key that the code tests with
      [in] / [.get] is an [option] field, [None] meaning the key is absent.
      Reading an absent key with [e[k]] raises [KeyError].
    - The module-level globals ([visualizer], [update_queue],
      [last_update_time]) and the position in the random stream form the
      explicit state [world].
    - [random.random()] is the next element of an arbitrary sample source
      [nat -> Q]; the state only carries how many samples were consumed.
    - Text is ASCII: [str.lower], [str.split] and [str.strip] are modelled on
      bytes, with Python's ASCII white space. *)

From Stdlib Require Import List String Ascii Bool Arith ZArith QArith Qround.
From Stdlib Require Import Lia Lqa DecimalString.
Import ListNotations.

Local Open Scope string_scope.
Local Open Scope list_scope.
Local Open Scope Q_scope.

(** ** Python values *)

Inductive exn : Type :=
| KeyError (key : string).

Inductive result (A : Type) : Type :=
| Ok (a : A)
| Raise (e : exn).
Arguments Ok {A} a.
Arguments Raise {A} e.

(** [x < y] on floats, as a boolean. *)
Definition Qltb (x y : Q) : bool := negb (Qle_bool y x).

(** Python's two-argument [max(a, b)]: [b] when [b > a], otherwise [a]. *)
Definition py_max (a b : Q) : Q := if Qltb a b then b else a.

(** [int(x)] on a float truncates toward zero. *)
Definition py_int (x : Q) : Z := Z.quot (Qnum x) (Zpos (Qden x)).

(** [str(n)] for an integer. *)
Definition str_of_Z (n : Z) : string := NilZero.string_of_int (Z.to_int n).

(** *** Strings *)

Definition lower_char (c : ascii) : ascii :=
  let n := nat_of_ascii c in
  if (65 <=? n)%nat && (n <=? 90)%nat then ascii_of_nat (n + 32) else c.

Fixpoint lower (s : string) : string :=
  match s with
  | EmptyString => EmptyString
  | String c r => String (lower_char c) (lower r)
  end.

(** White space for [str.split()] and [str.strip()] without arguments. *)
Definition is_space (c : ascii) : bool :=
  let n := nat_of_ascii c in
  ((9 <=? n)%nat && (n <=? 13)%nat) || ((28 <=? n)%nat && (n <=? 32)%nat).

Fixpoint whitespace_only (s : string) : bool :=
  match s with
  | EmptyString => true
  | String c r => is_space c && whitespace_only r
  end.

Fixpoint lstrip (s : string) : string :=
  match s with
  | EmptyString => EmptyString
  | String c r => if is_space c then lstrip r else s
  end.

Fixpoint rstrip (s : string) : string :=
  match s with
  | EmptyString => EmptyString
  | String c r =>
      match rstrip r with
      | EmptyString => if is_space c then EmptyString else String c EmptyString
      | r' => String c r'
      end
  end.

Definition strip (s : string) : string := rstrip (lstrip s).

(** [split_from cur s]: [cur] is the word being read, in reverse. *)
Fixpoint rev_string (acc s : string) : string :=
  match s with
  | EmptyString => acc
  | String c r => rev_string (String c acc) r
  end.

Definition flush (cur : string) (k : list string) : list string :=
  match cur with
  | EmptyString => k
  | _ => rev_string EmptyString cur :: k
  end.

Fixpoint split_from (cur s : string) : list string :=
  match s with
  | EmptyString => flush cur []
  | String c r =>
      if is_space c then flush cur (split_from EmptyString r)
      else split_from (String c cur) r
  end.

Definition split (s : string) : list string := split_from EmptyString s.

(** Truthiness of a [str] and of an optional [float] argument. *)
Definition truthy_str (s : string) : bool :=
  match s with EmptyString => false | _ => true end.

Definition truthy_float (x : option Q) : bool :=
  match x with
  | None => false
  | Some t => negb (Qeq_bool t 0)
  end.


(** ** Data model *)

(** [last_accessed] holds a float timestamp or an ISO date string. *)
Inductive stamp : Type :=
| Num (t : Q)
| Iso (s : string).

Record agent : Type := mkAgent {
  a_id : string;
  a_agent : string;
  a_current_strain : Q;
  a_gravitational_mass : option Q;
  a_last_accessed : option stamp;
  a_access_count : option Z
}.

Record entity : Type := mkEntity {
  id : string;
  name : string;
  entity_type : string;
  description : string;
  strain_amplitude : option Q;
  node_resistance : option Q;
  musical_frequency : option Z;
  gravitational_mass : option Q;
  access_count : option Z;
  last_accessed : option stamp
}.

Record relationship : Type := mkRelationship {
  r_id : string;
  r_from : string;
  r_to : string;
  r_type : string;
  r_authority_strength : Q;
  r_strain_amplitude : Q
}.

(** The [GraphVisualizer] instance. *)
Record visualizer : Type := mkVisualizer {
  agents : list agent;
  entities : list entity;
  relationships : list relationship
}.

(** ** GraphVisualizer.get_entities *)

(** [[e for e in entities if e["strain_amplitude"] > t]] *)
Fixpoint filter_strain (t : Q) (es : list entity) : result (list entity) :=
  match es with
  | [] => Ok []
  | e :: r =>
      match strain_amplitude e with
      | None => Raise (KeyError "strain_amplitude")
      | Some s =>
          match filter_strain t r with
          | Ok r' => Ok (if Qltb t s then e :: r' else r')
          | Raise x => Raise x
          end
      end
  end.

Definition get_entities (v : visualizer)
    (strain_threshold : option Q) (entity_type_arg : option string)
  : result (list entity) :=
  let es := entities v in
  let step1 :=
    match strain_threshold with
    | Some t =>
        if truthy_float strain_threshold then filter_strain t es else Ok es
    | None => Ok es
    end in
  match step1 with
  | Raise x => Raise x
  | Ok es1 =>
      match entity_type_arg with
      | Some ty =>
          if truthy_str ty
          then Ok (filter (fun e => String.eqb (entity_type e) ty) es1)
          else Ok es1
      | None => Ok es1
      end
  end.

(** ** GraphVisualizer.get_graph_stats *)

Record graph_stats : Type := mkGraphStats {
  total_agents : nat;
  total_entities : nat;
  total_relationships : nat;
  high_strain_entities : nat;
  low_resistance_entities : nat;
  high_frequency_entities : nat
}.

(** [len([e for e in l if p(e)])] *)
Definition count_if {A : Type} (p : A -> bool) (l : list A) : nat :=
  List.length (filter p l).

Definition get_graph_stats (v : visualizer) : graph_stats :=
  mkGraphStats
    (List.length (agents v))
    (List.length (entities v))
    (List.length (relationships v))
    (count_if
       (fun e => Qltb 0.8 (match strain_amplitude e with
                           | Some s => s
                           | None => 0.0
                           end))
       (entities v))
    (count_if
       (fun e => Qltb (match node_resistance e with
                       | Some r => r
                       | None => 0.0
                       end) 0.5)
       (entities v))
    (count_if
       (fun e => Z.ltb 500 (match musical_frequency e with
                            | Some f => f
                            | None => 0%Z
                            end))
       (entities v)).

(** ** Shared state *)

(** An entry of [response['new_relationships']]. *)
Record new_relationship : Type := mkNewRelationship {
  nr_id : string;
  nr_from_entity : string;
  nr_to_entity : string;
  nr_relationship_type : string;
  nr_strength : Q
}.

(** An entry of [response['strain_changes']]. *)
Record strain_change : Type := mkStrainChange {
  sc_entity_id : string;
  sc_old_strain : Q;
  sc_new_strain : Q;
  sc_reason : string
}.

(** The dict returned by [process_prompt].  [new_entities] holds the very
    dicts appended to [visualizer.entities]; they are kept here as their
    positions in that list, and read through the store. *)
Record response : Type := mkResponse {
  processed_prompt : string;
  ai_response : string;
  new_entities : list nat;
  new_relationships : list new_relationship;
  strain_changes : list strain_change
}.

(** What is put on [update_queue].  An ['update'] message carries references
    to [visualizer.agents] and [visualizer.entities], not a snapshot. *)
Inductive message : Type :=
| MUpdate (timestamp : Q)
| MPromptResponse (timestamp : Q) (prompt : string) (resp : response).

Record world : Type := mkWorld {
  vis : visualizer;
  update_queue : list message;
  last_update_time : Q;
  drawn : nat
}.

(** Field updates of an entity dict. *)
Definition set_strain_amplitude (x : option Q) (e : entity) : entity :=
  mkEntity (id e) (name e) (entity_type e) (description e) x
    (node_resistance e) (musical_frequency e) (gravitational_mass e)
    (access_count e) (last_accessed e).

Definition set_access_count (x : option Z) (e : entity) : entity :=
  mkEntity (id e) (name e) (entity_type e) (description e)
    (strain_amplitude e) (node_resistance e) (musical_frequency e)
    (gravitational_mass e) x (last_accessed e).

Definition set_last_accessed (x : option stamp) (e : entity) : entity :=
  mkEntity (id e) (name e) (entity_type e) (description e)
    (strain_amplitude e) (node_resistance e) (musical_frequency e)
    (gravitational_mass e) (access_count e) x.

(** [if k not in d: d[k] = v] *)
Definition setdefault {A : Type} (v : A) (x : option A) : A :=
  match x with
  | Some a => a
  | None => v
  end.

(** [update_queue.put(m)] *)
Definition put (m : message) (w : world) : world :=
  mkWorld (vis w) (update_queue w ++ [m]) (last_update_time w) (drawn w).

Section Engine.

(** [datetime.fromisoformat(s.replace('Z', '+00:00')).timestamp()];
    [None] when the parse raises. *)
Variable iso_timestamp : string -> option Q.

(** The successive results of [random.random()]. *)
Variable source : nat -> Q.

Definition random (n : nat) : Q * nat := (source n, S n).

(** [random.uniform(a, b)] is [a + (b - a) * random()]. *)
Definition uniform (a b : Q) (n : nat) : Q * nat :=
  let (u, n1) := random n in (a + (b - a) * u, n1).

(** ** One pass of background_updater *)

(** The [try]/[except] ladder that turns [last_accessed] into a float. *)
Definition last_access_of (current_time : Q) (la : stamp) : Q :=
  match la with
  | Iso s =>
      match iso_timestamp s with
      | Some t => t
      | None => current_time
      end
  | Num t => t
  end.

Definition new_mass (current_time last_access : Q) (count : Z) : Q :=
  let time_since_access := current_time - last_access in
  let time_factor := 1.0 + (1.0 / py_max time_since_access 1.0) in
  1.0 * inject_Z count * time_factor.

Definition update_agent (current_time : Q) (a : agent) : agent :=
  let la := setdefault (Num current_time) (a_last_accessed a) in
  let ac := setdefault 1%Z (a_access_count a) in
  let last_access := last_access_of current_time la in
  mkAgent (a_id a) (a_agent a) (a_current_strain a)
    (Some (new_mass current_time last_access ac))
    (Some (Num current_time))
    (Some ac).

(** The strain part of the loop body, lines 659-668. *)
Definition decay_strain (current_strain : Q) (n : nat) : Q * nat :=
  if Qltb 0.0 current_strain then
    let (u, n1) := random n in
    if Qltb u 0.05 then
      let (dissonance, n2) := uniform 0.1 0.2 n1 in
      (current_strain + dissonance, n2)
    else (py_max 0.0 (current_strain * 0.98), n1)
  else (current_strain, n).

(** The body of [for entity in visualizer.entities]. *)
Definition update_entity (current_time : Q) (e : entity) (n : nat)
  : entity * nat :=
  let ac := setdefault 1%Z (access_count e) in
  let la := setdefault (Num current_time) (last_accessed e) in
  let strain := setdefault 0.0 (strain_amplitude e) in
  let freq := setdefault 440%Z (musical_frequency e) in
  let last_access := last_access_of current_time la in
  let mass := new_mass current_time last_access ac in
  let incoming_strains := [strain] in
  let total_resistance := fold_left Qplus incoming_strains 0 in
  let (strain', n') := decay_strain strain n in
  (mkEntity (id e) (name e) (entity_type e) (description e)
     (Some strain') (Some total_resistance) (Some freq) (Some mass)
     (Some ac) (Some (Num current_time)),
   n').

Fixpoint update_entities (current_time : Q) (es : list entity) (n : nat)
  : list entity * nat :=
  match es with
  | [] => ([], n)
  | e :: r =>
      let (e', n1) := update_entity current_time e n in
      let (r', n2) := update_entities current_time r n1 in
      (e' :: r', n2)
  end.

(** One iteration of the [while True] loop, after [time.sleep(2)], with
    [current_time] the value read from the clock. *)
Definition background_updater_pass (current_time : Q) (w : world) : world :=
  let v := vis w in
  let ags := map (update_agent current_time) (agents v) in
  let (ents, n) := update_entities current_time (entities v) (drawn w) in
  put (MUpdate current_time)
    (mkWorld (mkVisualizer ags ents (relationships v)) (update_queue w)
       current_time n).

(** ** process_prompt *)

(** [random.randint(a, b)], idealised as one draw [u] of the source mapped
    to [a + floor(u * (b - a + 1))]. *)
Definition randint (a b : Z) (n : nat) : Z * nat :=
  let (u, n1) := random n in
  ((a + Qfloor (u * inject_Z (b - a + 1)))%Z, n1).

Definition stop_words : list string :=
  ["the"; "a"; "an"; "and"; "or"; "but"; "in"; "on"; "at"; "to"; "for";
   "of"; "with"; "by"].

Definition is_stop_word (word : string) : bool :=
  existsb (String.eqb word) stop_words.

(** [e['name'].lower() == word] *)
Definition names (word : string) (e : entity) : bool :=
  String.eqb (lower (name e)) word.

(** [next((e for e in visualizer.entities if ...), None)] *)
Definition existing_entity (word : string) (es : list entity) : option entity :=
  find (names word) es.

(** In-place mutation of the first dict selected by [p]. *)
Fixpoint update_first (p : entity -> bool) (f : entity -> entity)
    (es : list entity) : list entity :=
  match es with
  | [] => []
  | e :: r => if p e then f e :: r else e :: update_first p f r
  end.

Definition touch (current_time : Q) (count : Z) (e : entity) : entity :=
  set_last_accessed (Some (Num current_time))
    (set_access_count (Some (count + 1)%Z) e).

Definition new_word_entity (word : string) (current_time : Q) (freq : Z)
  : entity :=
  mkEntity ("word_" ++ word ++ "_" ++ str_of_Z (py_int current_time))%string
    word "concept_type" ("Word: " ++ word)%string
    (Some 0.0) (Some 0.0) (Some freq) (Some 1.0) (Some 1%Z)
    (Some (Num current_time)).

(** The loop [for word in words], on the entity list, the positions
    collected in [response['new_entities']] and the random stream.  A
    [KeyError] leaves the list as mutated so far. *)
Fixpoint word_loop (current_time : Q) (words : list string)
    (es : list entity) (created : list nat) (n : nat)
  : result (list nat) * (list entity * nat) :=
  match words with
  | [] => (Ok created, (es, n))
  | word :: rest =>
      if is_stop_word word then word_loop current_time rest es created n
      else
        match existing_entity word es with
        | Some e =>
            match access_count e with
            | None => (Raise (KeyError "access_count"), (es, n))
            | Some c =>
                word_loop current_time rest
                  (update_first (names word) (touch current_time c) es)
                  created n
            end
        | None =>
            let (freq, n1) := randint 261 493 n in
            word_loop current_time rest
              (es ++ [new_word_entity word current_time freq])
              (created ++ [List.length es]) n1
        end
  end.

(** [l[-k:]] *)
Definition last_slice {A : Type} (k : nat) (l : list A) : list A :=
  match k with
  | O => l
  | _ => skipn (List.length l - k) l
  end.

(** The inner loop [for j, entity2 in enumerate(visualizer.entities)]. *)
Fixpoint connect_row (i : nat) (entity1 : entity) (j : nat)
    (es : list entity) (n : nat) : list new_relationship * nat :=
  match es with
  | [] => ([], n)
  | entity2 :: r =>
      if Nat.eqb i j then connect_row i entity1 (S j) r n
      else
        let (u, n1) := random n in
        if Qltb u 0.1 then
          let (strength, n2) := uniform 0.1 0.9 n1 in
          let rel := mkNewRelationship
                       ("rel_" ++ id entity1 ++ "_" ++ id entity2)%string
                       (id entity1) (id entity2) "semantic_similarity"
                       strength in
          let (rels, n3) := connect_row i entity1 (S j) r n2 in
          (rel :: rels, n3)
        else connect_row i entity1 (S j) r n1
  end.

Fixpoint connect_loop (i : nat) (recent all : list entity) (n : nat)
  : list new_relationship * nat :=
  match recent with
  | [] => ([], n)
  | entity1 :: r =>
      let (row, n1) := connect_row i entity1 0 all n in
      let (rows, n2) := connect_loop (S i) r all n1 in
      (row ++ rows, n2)
  end.

(** The body of [for entity in visualizer.entities[:5]]. *)
Definition dissonance_step (e : entity) (n : nat)
  : entity * list strain_change * nat :=
  let old_strain := setdefault 0.0 (strain_amplitude e) in
  let (u, n1) := random n in
  if Qltb u 0.05 then
    let (dissonance, n2) := uniform 0.1 0.2 n1 in
    let new_strain := old_strain + dissonance in
    (set_strain_amplitude (Some new_strain) e,
     [mkStrainChange (id e) old_strain new_strain
        "cognitive dissonance detected"],
     n2)
  else
    (set_strain_amplitude (Some (py_max 0.0 (old_strain * 0.98))) e, [], n1).

Fixpoint dissonance_loop (es : list entity) (n : nat)
  : list entity * list strain_change * nat :=
  match es with
  | [] => ([], [], n)
  | e :: r =>
      let '(e', c, n1) := dissonance_step e n in
      let '(r', cs, n2) := dissonance_loop r n1 in
      (e' :: r', c ++ cs, n2)
  end.

Definition with_entities (es : list entity) (n : nat) (w : world) : world :=
  mkWorld (mkVisualizer (agents (vis w)) es (relationships (vis w)))
    (update_queue w) (last_update_time w) n.

(** [process_prompt(prompt)], with [current_time] the clock value it reads. *)
Definition process_prompt (prompt : string) (current_time : Q) (w : world)
  : result response * world :=
  let words := split (lower prompt) in
  match word_loop current_time words (entities (vis w)) [] (drawn w) with
  | (Raise x, (es, n)) => (Raise x, with_entities es n w)
  | (Ok created, (es, n)) =>
      let recent := last_slice (List.length words) es in
      let (rels, n1) := connect_loop 0 recent es n in
      let '(head, changes, n2) := dissonance_loop (firstn 5 es) n1 in
      (Ok (mkResponse prompt ("Processing: " ++ prompt)%string created rels
             changes),
       with_entities (head ++ skipn 5 es) n2 w)
  end.

(** ** api_process_prompt *)

Inductive http_response : Type :=
| HttpSuccess (message : string) (resp : response)
| HttpError (code : Z) (message : string).

Definition str_of_exn (x : exn) : string :=
  match x with
  | KeyError k => ("'" ++ k ++ "'")%string
  end.

(** The request body is a JSON object; [data] is the value under its
    ['prompt'] key, [None] when the key is absent.  [time1] is the clock read
    by [process_prompt], [time2] the one read for the queued message. *)
Definition api_process_prompt (data : option string) (time1 time2 : Q)
    (w : world) : http_response * world :=
  let prompt := strip (setdefault "" data) in
  if negb (truthy_str prompt) then (HttpError 400 "No prompt provided", w)
  else
    match process_prompt prompt time1 w with
    | (Raise x, w1) =>
        (HttpError 500 ("Error processing prompt: " ++ str_of_exn x)%string,
         w1)
    | (Ok resp, w1) =>
        (HttpSuccess "Prompt processed successfully" resp,
         put (MPromptResponse time2 prompt resp) w1)
    end.

(** ** api_entities and api_stream_updates *)

(** The handler reads the store and writes nothing. *)
Definition api_entities (strain_threshold : option Q)
    (entity_type_arg : option string) (w : world)
  : result (list entity) * world :=
  (get_entities (vis w) strain_threshold entity_type_arg, w).

(** What a stream client is sent. *)
Inductive event : Type :=
| EvUpdate (timestamp : Q) (ags : list agent) (ents : list entity)
| EvPromptResponse (timestamp : Q) (prompt : string) (resp : response)
    (new_ents : list entity)
| EvHeartbeat (timestamp : Q).

Fixpoint deref (es : list entity) (refs : list nat) : list entity :=
  match refs with
  | [] => []
  | i :: r =>
      match nth_error es i with
      | Some e => e :: deref es r
      | None => deref es r
      end
  end.

(** [json.dumps(update)]: references are followed when the message is
    written out, not when it was queued. *)
Definition dumps (v : visualizer) (m : message) : event :=
  match m with
  | MUpdate t => EvUpdate t (agents v) (entities v)
  | MPromptResponse t prompt resp =>
      EvPromptResponse t prompt resp (deref (entities v) (new_entities resp))
  end.

(** One iteration of [generate()] for one connected client:
    [update_queue.get(timeout=5)] removes the oldest message, or the wait
    times out on an empty queue and a heartbeat stamped [now] is sent. *)
Definition stream_next (now : Q) (w : world) : event * option message * world :=
  match update_queue w with
  | m :: q =>
      (dumps (vis w) m, Some m,
       mkWorld (vis w) q (last_update_time w) (drawn w))
  | [] => (EvHeartbeat now, None, w)
  end.

(** ** The running service *)

(** What can happen to the process: the updater thread completes a pass, or
    a request handler runs.  [StreamNext c now] is one loop iteration of the
    generator serving stream client [c]. *)
Inductive request : Type :=
| Tick (current_time : Q)
| PostPrompt (data : option string) (time1 time2 : Q)
| GetEntities (strain_threshold : option Q) (entity_type_arg : option string)
| StreamNext (client : nat) (now : Q).

Record delivery : Type := mkDelivery {
  client : nat;
  dequeued : option message;
  sent : event
}.

Record service : Type := mkService {
  state : world;
  log : list delivery
}.

Definition serve (r : request) (s : service) : service :=
  match r with
  | Tick t => mkService (background_updater_pass t (state s)) (log s)
  | PostPrompt data t1 t2 =>
      mkService (snd (api_process_prompt data t1 t2 (state s))) (log s)
  | GetEntities th ty => mkService (snd (api_entities th ty (state s))) (log s)
  | StreamNext c now =>
      let '(ev, m, w) := stream_next now (state s) in
      mkService w (log s ++ [mkDelivery c m ev])
  end.

Definition run (rs : list request) (s : service) : service :=
  fold_left (fun s r => serve r s) rs s.

(** The messages a request puts on the queue. *)
Definition publishes (r : request) (w : world) : list message :=
  match r with
  | Tick t => [MUpdate t]
  | PostPrompt data t1 t2 =>
      match fst (api_process_prompt data t1 t2 w) with
      | HttpSuccess _ resp =>
          [MPromptResponse t2 (strip (setdefault "" data)) resp]
      | HttpError _ _ => []
      end
  | GetEntities _ _ => []
  | StreamNext _ _ => []
  end.

Fixpoint published (rs : list request) (s : service) : list message :=
  match rs with
  | [] => []
  | r :: rest => publishes r (state s) ++ published rest (serve r s)
  end.

(** The messages taken off the queue, all clients together, oldest first. *)
Fixpoint taken (l : list delivery) : list message :=
  match l with
  | [] => []
  | d :: r =>
      match dequeued d with
      | Some m => m :: taken r
      | None => taken r
      end
  end.

(** What client [c] was sent. *)
Definition received (c : nat) (l : list delivery) : list event :=
  map sent (filter (fun d => Nat.eqb (client d) c) l).

End Engine.

(** ** Records as loaded from JSON *)

(** [migrate_entities_to_new_structure] and [get_all_nodes] work on the
    dicts as they come from the data file, before any shape can be relied
    on.  Here a dict is an association list in insertion order, read at its
    first binding of a key; numbers, [int] or [float], are rationals, and
    [VCompound] stands for any list or object, which the code never
    inspects. *)
Inductive value : Type :=
| VNum (x : Q)
| VStr (s : string)
| VBool (b : bool)
| VNull
| VCompound.

Definition dict : Type := list (string * value).

Inductive failure : Type :=
| MissingKey (key : string)
| TypeError.

(** [d.get(k)] *)
Fixpoint dict_get (k : string) (d : dict) : option value :=
  match d with
  | [] => None
  | (k', v) :: r => if String.eqb k' k then Some v else dict_get k r
  end.

(** [k in d] *)
Definition dict_has (k : string) (d : dict) : bool :=
  match dict_get k d with
  | Some _ => true
  | None => false
  end.

(** [d[k] = v]: an existing key keeps its place. *)
Fixpoint dict_set (k : string) (v : value) (d : dict) : dict :=
  match d with
  | [] => [(k, v)]
  | (k', v') :: r =>
      if String.eqb k' k then (k, v) :: r else (k', v') :: dict_set k v r
  end.

(** [del d[k]] *)
Fixpoint dict_del (k : string) (d : dict) : dict :=
  match d with
  | [] => []
  | (k', v') :: r =>
      if String.eqb k' k then dict_del k r else (k', v') :: dict_del k r
  end.

(** [{**base, **d}]: the bindings of [d], in order, written over [base]. *)
Definition dict_update (base d : dict) : dict :=
  fold_left (fun acc kv => dict_set (fst kv) (snd kv) acc) d base.

(** The operand of [<=] against an [int]: a number or a [bool]; anything
    else makes the comparison raise [TypeError]. *)
Definition as_number (v : value) : option Q :=
  match v with
  | VNum x => Some x
  | VBool true => Some 1
  | VBool false => Some 0
  | _ => None
  end.

(** The [if]/[elif] ladder from an old frequency to a note. *)
Definition note_of (old_freq : Q) : Z :=
  if Qle_bool old_freq 5 then 261
  else if Qle_bool old_freq 10 then 293
  else if Qle_bool old_freq 15 then 329
  else if Qle_bool old_freq 20 then 349
  else 440.

(** [if k not in d: d[k] = v] *)
Definition dict_default (k : string) (v : value) (d : dict) : dict :=
  if dict_has k d then d else dict_set k v d.

Section Loader.

Variable iso_timestamp : string -> option Q.

(** The time given to a record without [last_accessed]. *)
Definition first_access (current_time : Q) (d : dict) : Q :=
  match dict_get "modified" d with
  | Some (VStr s) =>
      match iso_timestamp s with
      | Some t => t
      | None => current_time
      end
  | Some _ => current_time
  | None => current_time
  end.

(** The four defaults at the end of the loop body. *)
Definition add_gravity_fields (current_time : Q) (d : dict) : dict :=
  let d1 := dict_default "gravitational_mass" (VNum 1.0) d in
  let d2 :=
    if dict_has "last_accessed" d1 then d1
    else dict_set "last_accessed" (VNum (first_access current_time d1)) d1 in
  let d3 := dict_default "strain_amplitude" (VNum 0.0) d2 in
  dict_default "access_count" (VNum 1) d3.

Definition rename_resistance (d : dict) : dict :=
  match dict_get "strain_resistance" d with
  | Some v =>
      if dict_has "node_resistance" d then d
      else dict_del "strain_resistance" (dict_set "node_resistance" v d)
  | None => d
  end.

(** The body of the loop of [migrate_entities_to_new_structure]; the dict is
    returned as mutated so far together with the exception, if any. *)
Definition migrate_entity (current_time : Q) (d : dict)
  : dict * option failure :=
  let d1 := rename_resistance d in
  match dict_get "strain_frequency" d1 with
  | Some old_freq =>
      if dict_has "musical_frequency" d1
      then (add_gravity_fields current_time d1, None)
      else
        match as_number old_freq with
        | None => (d1, Some TypeError)
        | Some x =>
            (add_gravity_fields current_time
               (dict_del "strain_frequency"
                  (dict_set "musical_frequency"
                     (VNum (inject_Z (note_of x))) d1)),
             None)
        end
  | None => (add_gravity_fields current_time d1, None)
  end.

(** [migrate_entities_to_new_structure], on [self.entities], with
    [current_time] the clock value read before the loop. *)
Fixpoint migrate_entities (current_time : Q) (es : list dict)
  : list dict * option failure :=
  match es with
  | [] => ([], None)
  | d :: r =>
      match migrate_entity current_time d with
      | (d', Some x) => (d' :: r, Some x)
      | (d', None) =>
          let (r', x) := migrate_entities current_time r in (d' :: r', x)
      end
  end.

End Loader.

(** *** GraphVisualizer.get_all_nodes *)

(** [d[k]] *)
Definition dict_item (k : string) (d : dict) : failure + value :=
  match dict_get k d with
  | Some v => inr v
  | None => inl (MissingKey k)
  end.

Definition agent_node (agent : dict) : failure + dict :=
  match dict_item "id" agent with
  | inl x => inl x
  | inr i =>
      match dict_item "agent" agent with
      | inl x => inl x
      | inr a =>
          match dict_item "current_strain" agent with
          | inl x => inl x
          | inr st =>
              match dict_item "domain" agent with
              | inl x => inl x
              | inr dom =>
                  inr (dict_update
                         [("id", i); ("name", a); ("type", VStr "throne");
                          ("strain", st); ("domain", dom);
                          ("isAgent", VBool true)]
                         agent)
              end
          end
      end
  end.

Definition entity_node (e : dict) : failure + dict :=
  match dict_item "id" e with
  | inl x => inl x
  | inr i =>
      match dict_item "name" e with
      | inl x => inl x
      | inr nm =>
          let st := match dict_get "strain_amplitude" e with
                    | Some v => v
                    | None => VNum 0.0
                    end in
          let ty := match dict_get "entity_type" e with
                    | Some v => v
                    | None => VStr "concept_type"
                    end in
          inr (dict_update
                 [("id", i); ("name", nm); ("type", VStr "entity");
                  ("strain", st); ("entityType", ty);
                  ("isAgent", VBool false)]
                 e)
      end
  end.

Fixpoint nodes_of (f : dict -> failure + dict) (l : list dict)
  : failure + list dict :=
  match l with
  | [] => inr []
  | d :: r =>
      match f d with
      | inl x => inl x
      | inr n =>
          match nodes_of f r with
          | inl x => inl x
          | inr ns => inr (n :: ns)
          end
      end
  end.

Definition get_all_nodes (ags ents : list dict) : failure + list dict :=
  match nodes_of agent_node ags with
  | inl x => inl x
  | inr a =>
      match nodes_of entity_node ents with
      | inl x => inl x
      | inr e => inr (a ++ e)
      end
  end.

(** ** Reading amplitudes *)

(** [e.get('strain_amplitude', 0.0)] *)
Definition amplitude (e : entity) : Q := setdefault 0.0 (strain_amplitude e).

Definition nonneg_amplitude (e : entity) : Prop := 0 <= amplitude e.

(** The samples of [random.random()] lie in [0, 1). *)
Definition unit_interval (source : nat -> Q) : Prop :=
  forall i : nat, 0 <= source i /\ source i < 1.

(** A source stubbed so that [random.random() < 0.05] never holds. *)
Definition always_decays (source : nat -> Q) : Prop :=
  forall i : nat, 0.05 <= source i.

(** [e'] is [e] up to the value of its amplitude, which is not removed. *)
Definition forget_strain (e : entity) : entity := set_strain_amplitude None e.

Definition same_but_strain (e e' : entity) : Prop :=
  forget_strain e' = forget_strain e
  /\ (strain_amplitude e <> None -> strain_amplitude e' <> None).

(** A node as [process_prompt] creates it for [word] at time [now]: every
    attribute is present, with its default value, the amplitude excepted,
    which the dissonance loop may already have rewritten. *)
Definition fresh_word_node (word : string) (now : Q) (e : entity) : Prop :=
  id e = ("word_" ++ word ++ "_" ++ str_of_Z (py_int now))%string
  /\ name e = word
  /\ entity_type e = "concept_type"
  /\ access_count e = Some 1%Z
  /\ last_accessed e = Some (Num now)
  /\ gravitational_mass e = Some 1.0
  /\ node_resistance e = Some 0.0
  /\ (exists f, musical_frequency e = Some f /\ (261 <= f <= 493)%Z)
  /\ strain_amplitude e <> None.

(** ** Statements about nodes *)

(** The claim of C2 on one node after a pass. *)
Definition resistance_is_amplitude (e' : entity) : Prop :=
  exists r s, node_resistance e' = Some r /\ strain_amplitude e' = Some s
              /\ r == s.

(** What the pass establishes: the resistance written is the amplitude read
    at the start of the visit. *)
Definition resistance_is_previous_amplitude (e e' : entity) : Prop :=
  exists r, node_resistance e' = Some r /\ r == amplitude e.

(** C3 as stated, for the visit of a node of amplitude [a] at stream
    position [n], ending with amplitude [a'] at position [n']. *)
Definition unguarded_update (source : nat -> Q) (a : Q) (n : nat)
    (a' : Q) (n' : nat) : Prop :=
  (n < n')%nat
  /\ (source n < 0.05 ->
      exists d, 0.1 <= d /\ d < 0.2 /\ a' == a + d)
  /\ (0.05 <= source n -> a' == py_max 0.0 (a * 0.98)).

(** The node of the scenario and what the pass must make of it. *)
Definition scenario_before (iso_timestamp : string -> option Q) (now : Q)
    (e : entity) : Prop :=
  (exists a, strain_amplitude e = Some a /\ a == 0.5)
  /\ access_count e = Some 3%Z
  /\ (exists la, last_accessed e = Some la
                 /\ now - last_access_of iso_timestamp now la == 10).

Definition scenario_after (now : Q) (e' : entity) : Prop :=
  (exists a, strain_amplitude e' = Some a /\ a == 0.49)
  /\ (exists m, gravitational_mass e' = Some m /\ m == 1 * 3 * (1 + 1 / 10)
                /\ m == 3.3)
  /\ last_accessed e' = Some (Num now).

(** ** Sample data *)

(** Stubs for the clock parser and the random source. *)
Definition no_iso : string -> option Q := fun _ => None.

Definition const_source (u : Q) : nat -> Q := fun _ => u.

Definition n0 : entity :=
  mkEntity "n0" "n0" "concept_type" "" (Some 0.5) (Some 0.5) (Some 440%Z)
    (Some 1.0) (Some 3%Z) (Some (Num 90)).

Definition world_of (es : list entity) : world :=
  mkWorld (mkVisualizer [] es []) [] 0 0.

(** A word node at rest: amplitude 0.0. *)
Definition idle_word : entity :=
  mkEntity "word_cat_100" "cat" "concept_type" "Word: cat"
    (Some 0.0) (Some 0.0) (Some 300%Z) (Some 1.0) (Some 1%Z) (Some (Num 100)).

(** A node loaded without its [access_count]. *)
Definition uncounted : entity :=
  mkEntity "old" "Old" "concept_type" "" (Some 0.0) None None None None None.

(** A record in the legacy shape, as the knowledge generator writes it. *)
Definition legacy_record : dict :=
  [("id", VStr "arithmetic"); ("name", VStr "Arithmetic");
   ("entity_type", VStr "concept_type");
   ("strain_amplitude", VNum 0.9); ("strain_resistance", VNum 0.1);
   ("strain_frequency", VNum 20); ("access_count", VNum 20)].

(** The same record after migration at time 100. *)
Definition migrated_record : dict :=
  [("id", VStr "arithmetic"); ("name", VStr "Arithmetic");
   ("entity_type", VStr "concept_type");
   ("strain_amplitude", VNum 0.9); ("access_count", VNum 20);
   ("node_resistance", VNum 0.1); ("musical_frequency", VNum 349);
   ("gravitational_mass", VNum 1.0); ("last_accessed", VNum 100)].

(** A record whose legacy frequency is not a number. *)
Definition bad_record : dict :=
  [("id", VStr "odd"); ("name", VStr "Odd");
   ("strain_frequency", VStr "high")].

(** An agent as [load_real_agents] defines it. *)
Definition engineer : dict :=
  [("id", VStr "engineer"); ("name", VStr "ThroneOfTheEngineer");
   ("agent", VStr "The Engineer");
   ("domain", VStr "mathematical reasoning and systematic processes");
   ("authority_level", VStr "triggered"); ("current_strain", VNum 0.3);
   ("max_strain", VNum 1.0); ("is_active", VBool true);
   ("keywords", VCompound); ("created", VStr "2024-01-01T00:00:00");
   ("last_accessed", VStr "2024-12-21T00:00:00")].

(** A service that starts with entities [es], an empty queue and no
    delivery. *)
Definition fresh_service (es : list entity) : service :=
  mkService (world_of es) [].

(** ** Further statements *)


(** The attributes that identify a node and that no operation rewrites. *)
Definition ident (e : entity) : string * string * string * string :=
  (id e, name e, entity_type e, description e).



(** Text without upper-case ASCII letters. *)
Fixpoint lowercase (s : string) : Prop :=
  match s with
  | EmptyString => True
  | String c r => lower_char c = c /\ lowercase r
  end.

(** Some node answers to [word]. *)
Definition known (word : string) (es : list entity) : Prop :=
  existing_entity word es <> None.

(** The four keys [migrate_entities_to_new_structure] guarantees. *)
Definition gravity_keys : list string :=
  ["gravitational_mass"; "last_accessed"; "strain_amplitude"; "access_count"].

Definition has_gravity_keys (d : dict) : Prop :=
  Forall (fun k => dict_has k d = true) gravity_keys.

(** A record in which neither legacy key awaits conversion. *)
Definition settled (d : dict) : Prop :=
  (dict_get "strain_resistance" d = None
   \/ dict_has "node_resistance" d = true)
  /\ (dict_get "strain_frequency" d = None
      \/ dict_has "musical_frequency" d = true).

(** The keys [get_all_nodes] reads with [d[k]]. *)
Definition agent_ready (d : dict) : Prop :=
  dict_has "id" d = true /\ dict_has "agent" d = true
  /\ dict_has "current_strain" d = true /\ dict_has "domain" d = true.

Definition entity_ready (d : dict) : Prop :=
  dict_has "id" d = true /\ dict_has "name" d = true.

(** A dict binds each key once. *)
Definition well_keyed (d : dict) : Prop := NoDup (map fst d).

(** A strain change as [process_prompt] reports it. *)
Definition reported_change (c : strain_change) : Prop :=
  sc_reason c = "cognitive dissonance detected"
  /\ 0.1 <= sc_new_strain c - sc_old_strain c
  /\ sc_new_strain c - sc_old_strain c < 0.2.

(** A relationship as [process_prompt] reports it. *)
Definition reported_link (r : new_relationship) : Prop :=
  nr_id r = ("rel_" ++ nr_from_entity r ++ "_" ++ nr_to_entity r)%string
  /\ nr_relationship_type r = "semantic_similarity"
  /\ 0.1 <= nr_strength r /\ nr_strength r < 0.9.

(** No request of the list reads the stream. *)
Definition no_stream_read (rs : list request) : bool :=
  forallb (fun r => match r with StreamNext _ _ => false | _ => true end) rs.

(** The attributes of an agent that no operation rewrites. *)
Definition agent_ident (a : agent) : string * string * Q :=
  (a_id a, a_agent a, a_current_strain a).

(** [0.98 ** k] *)
Fixpoint decay_power (k : nat) : Q :=
  match k with
  | O => 1
  | S k' => 0.98 * decay_power k'
  end.

(** The mass written by a pass lies between the access count and twice the
    access count. *)
Definition mass_within_count (m : Q) (c : Z) : Prop :=
  inject_Z c <= m /\ m <= 2 * inject_Z c.

(** * Properties *)

(** ** Comparisons *)

Lemma Qltb_true (x y : Q) : Qltb x y = true <-> x < y.
Proof.
  unfold Qltb. rewrite negb_true_iff.
  split; intro H.
  - apply Qnot_le_lt. intro Hle. apply Qle_bool_iff in Hle. congruence.
  - destruct (Qle_bool y x) eqn:E; [|reflexivity].
    apply Qle_bool_iff in E. exfalso. exact (Qlt_not_le _ _ H E).
Qed.

Lemma Qltb_false (x y : Q) : Qltb x y = false <-> y <= x.
Proof.
  unfold Qltb. rewrite negb_false_iff. apply Qle_bool_iff.
Qed.

Lemma py_max_floor (x : Q) : 0 <= py_max 0.0 x.
Proof.
  unfold py_max. destruct (Qltb 0.0 x) eqn:E.
  - apply Qltb_true in E. lra.
  - lra.
Qed.

(** ** Filtering by threshold *)

Lemma filter_strain_spec (t : Q) (es : list entity) :
  Forall (fun e => strain_amplitude e <> None) es ->
  filter_strain t es = Ok (filter (fun e => Qltb t (amplitude e)) es).
Proof.
  induction 1 as [|e r He _ IH]; simpl; [reflexivity|].
  unfold amplitude at 1.
  destruct (strain_amplitude e) as [a|]; [|congruence].
  rewrite IH. simpl. reflexivity.
Qed.

(** Whenever the threshold is a non-zero number the comprehension runs and
    keeps exactly the entities above it. *)
Lemma get_entities_nonzero_threshold (v : visualizer) (t : Q) :
  ~ t == 0 ->
  Forall (fun e => strain_amplitude e <> None) (entities v) ->
  get_entities v (Some t) None
  = Ok (filter (fun e => Qltb t (amplitude e)) (entities v)).
Proof.
  intros Ht Hall. unfold get_entities. simpl.
  destruct (Qeq_bool t 0) eqn:E.
  - apply Qeq_bool_iff in E. contradiction.
  - simpl. rewrite filter_strain_spec by assumption. reflexivity.
Qed.

(** A threshold equal to zero is treated as no threshold at all. *)
Lemma get_entities_zero_threshold (v : visualizer) (t : Q)
    (ty : option string) :
  t == 0 -> get_entities v (Some t) ty = get_entities v None ty.
Proof.
  intro Ht. unfold get_entities, truthy_float.
  apply Qeq_bool_iff in Ht. rewrite Ht. reflexivity.
Qed.

(** C6, at the threshold 0: [if strain_threshold:] takes the number 0 for a
    missing argument, the comprehension is skipped, and an entity whose
    amplitude is 0.0, which is not strictly greater than 0, is returned. *)
Theorem get_entities_zero_threshold_unfiltered :
  get_entities (mkVisualizer [] [idle_word] []) (Some 0.0) None
    = Ok [idle_word]
  /\ Qltb 0.0 (amplitude idle_word) = false.
Proof.
  split; reflexivity.
Qed.

(** ** Lists *)

Lemma Forall2_transfer {A B : Type} (P : A -> Prop) (R : B -> Prop)
    (l : list A) (l' : list B) :
  Forall2 (fun a b => P a -> R b) l l' -> Forall P l -> Forall R l'.
Proof.
  induction 1 as [|a b l l' Hab _ IH]; intro H; [constructor|].
  inversion H; subst. constructor; auto.
Qed.

Lemma Forall_firstn {A : Type} (P : A -> Prop) (k : nat) (l : list A) :
  Forall P l -> Forall P (firstn k l).
Proof.
  intro H. rewrite <- (firstn_skipn k l) in H.
  apply Forall_app in H. tauto.
Qed.

Lemma Forall_skipn {A : Type} (P : A -> Prop) (k : nat) (l : list A) :
  Forall P l -> Forall P (skipn k l).
Proof.
  intro H. rewrite <- (firstn_skipn k l) in H.
  apply Forall_app in H. tauto.
Qed.

Section EngineFacts.

Variable iso_timestamp : string -> option Q.
Variable source : nat -> Q.

(** ** The pass, entity by entity *)

Lemma update_entities_pointwise (now : Q) (es : list entity) (n : nat) :
  Forall2
    (fun e e' => exists k, e' = fst (update_entity iso_timestamp source now e k))
    es (fst (update_entities iso_timestamp source now es n)).
Proof.
  revert n. induction es as [|e r IH]; intro n; simpl.
  - constructor.
  - destruct (update_entity iso_timestamp source now e n) as [e' n1] eqn:E.
    specialize (IH n1).
    destruct (update_entities iso_timestamp source now r n1) as [r' n2].
    simpl in *. constructor; [|exact IH].
    exists n. rewrite E. reflexivity.
Qed.

Lemma pass_entities (now : Q) (w : world) :
  entities (vis (background_updater_pass iso_timestamp source now w))
  = fst (update_entities iso_timestamp source now (entities (vis w)) (drawn w)).
Proof.
  unfold background_updater_pass.
  destruct (update_entities iso_timestamp source now (entities (vis w))
              (drawn w)).
  reflexivity.
Qed.

Lemma pass_pointwise (now : Q) (w : world) (P : entity -> entity -> Prop) :
  (forall e k, P e (fst (update_entity iso_timestamp source now e k))) ->
  Forall2 P (entities (vis w))
    (entities (vis (background_updater_pass iso_timestamp source now w))).
Proof.
  intro HP. rewrite pass_entities.
  eapply Forall2_impl; [|apply update_entities_pointwise].
  intros e e' [k ->]. apply HP.
Qed.

(** The fields written by one visit, in terms of the values read. *)
Lemma visit_fields (now : Q) (e : entity) (n : nat) :
  let e' := fst (update_entity iso_timestamp source now e n) in
  strain_amplitude e' = Some (fst (decay_strain source (amplitude e) n))
  /\ node_resistance e' = Some (0 + amplitude e)
  /\ gravitational_mass e'
     = Some (new_mass now
               (last_access_of iso_timestamp now
                  (setdefault (Num now) (last_accessed e)))
               (setdefault 1%Z (access_count e)))
  /\ access_count e' = Some (setdefault 1%Z (access_count e))
  /\ last_accessed e' = Some (Num now)
  /\ musical_frequency e' = Some (setdefault 440%Z (musical_frequency e))
  /\ snd (update_entity iso_timestamp source now e n)
     = snd (decay_strain source (amplitude e) n).
Proof.
  unfold update_entity, amplitude.
  destruct (decay_strain source (setdefault 0.0 (strain_amplitude e)) n).
  simpl. repeat split.
Qed.

(** ** Edges *)

(** C9: a pass of the updater leaves [visualizer.relationships] as it was. *)
Theorem pass_keeps_relationships (now : Q) (w : world) :
  relationships (vis (background_updater_pass iso_timestamp source now w))
  = relationships (vis w).
Proof.
  unfold background_updater_pass.
  destruct (update_entities iso_timestamp source now (entities (vis w))
              (drawn w)).
  reflexivity.
Qed.

(** ** Resistance *)

(** C2, amended: after a pass every visited node's resistance equals the
    amplitude that node had when the pass reached it, before the amplitude
    update of that pass; when that amplitude is not positive the pass does
    not change it and resistance equals the amplitude after the pass too. *)
Theorem pass_resistance (now : Q) (w : world) :
  Forall2
    (fun e e' =>
       resistance_is_previous_amplitude e e'
       /\ (amplitude e <= 0 -> resistance_is_amplitude e'))
    (entities (vis w))
    (entities (vis (background_updater_pass iso_timestamp source now w))).
Proof.
  apply pass_pointwise. intros e k.
  destruct (visit_fields now e k) as (Hs & Hr & _).
  split.
  - exists (0 + amplitude e). split; [exact Hr|]. lra.
  - intro Hle. exists (0 + amplitude e), (amplitude e).
    split; [exact Hr|]. split; [|lra].
    assert (E : Qltb 0.0 (amplitude e) = false) by (apply Qltb_false; lra).
    rewrite Hs. unfold decay_strain. rewrite E. reflexivity.
Qed.

(** ** Amplitude *)

Lemma decay_strain_idle (s : Q) (n : nat) :
  s <= 0 -> decay_strain source s n = (s, n).
Proof.
  intro Hs. unfold decay_strain.
  assert (E : Qltb 0.0 s = false) by (apply Qltb_false; lra).
  rewrite E. reflexivity.
Qed.

Lemma decay_strain_spike (s : Q) (n : nat) :
  0 < s -> source n < 0.05 ->
  decay_strain source s n
  = (s + (0.1 + (0.2 - 0.1) * source (S n)), S (S n)).
Proof.
  intros Hs Hu. unfold decay_strain, uniform, random.
  assert (E1 : Qltb 0.0 s = true) by (apply Qltb_true; lra).
  assert (E2 : Qltb (source n) 0.05 = true) by (apply Qltb_true; lra).
  rewrite E1, E2. reflexivity.
Qed.

Lemma decay_strain_decay (s : Q) (n : nat) :
  0 < s -> 0.05 <= source n ->
  decay_strain source s n = (py_max 0.0 (s * 0.98), S n).
Proof.
  intros Hs Hu. unfold decay_strain, uniform, random.
  assert (E1 : Qltb 0.0 s = true) by (apply Qltb_true; lra).
  assert (E2 : Qltb (source n) 0.05 = false) by (apply Qltb_false; lra).
  rewrite E1, E2. reflexivity.
Qed.

Lemma py_max_decay (s : Q) : 0 < s -> py_max 0.0 (s * 0.98) = s * 0.98.
Proof.
  intro Hs. unfold py_max.
  assert (E : Qltb 0.0 (s * 0.98) = true) by (apply Qltb_true; lra).
  rewrite E. reflexivity.
Qed.

(** C3, amended: the amplitude update is guarded by [current_strain > 0.0].
    For a node of positive amplitude one sample is drawn; when it is below
    0.05 a second sample fixes an increase in [0.1, 0.2), otherwise the
    amplitude is multiplied by 0.98, floored at 0.  For a node whose
    amplitude is not positive no sample is drawn and it keeps its value. *)
Theorem amplitude_update_guarded (now : Q) (e : entity) (n : nat) :
  unit_interval source ->
  let a := amplitude e in
  let e' := fst (update_entity iso_timestamp source now e n) in
  let n' := snd (update_entity iso_timestamp source now e n) in
  (0 < a -> source n < 0.05 ->
     n' = S (S n) /\
     exists d, 0.1 <= d /\ d < 0.2 /\ strain_amplitude e' = Some (a + d))
  /\ (0 < a -> 0.05 <= source n ->
        n' = S n /\ strain_amplitude e' = Some (py_max 0.0 (a * 0.98))
        /\ py_max 0.0 (a * 0.98) = a * 0.98)
  /\ (a <= 0 -> n' = n /\ strain_amplitude e' = Some a).
Proof.
  intros Hsrc a e' n'.
  destruct (visit_fields now e n) as (Hs & _ & _ & _ & _ & _ & Hn).
  fold a in Hs, Hn. fold e' in Hs. fold n' in Hn.
  repeat split.
  - rewrite Hn, decay_strain_spike by assumption. reflexivity.
  - destruct (Hsrc (S n)) as [Hlo Hhi].
    exists (0.1 + (0.2 - 0.1) * source (S n)).
    split; [lra|]. split; [lra|].
    rewrite Hs, decay_strain_spike by assumption. reflexivity.
  - rewrite Hn, decay_strain_decay by assumption. reflexivity.
  - rewrite Hs, decay_strain_decay by assumption. reflexivity.
  - apply py_max_decay. assumption.
  - rewrite Hn, decay_strain_idle by assumption. reflexivity.
  - rewrite Hs, decay_strain_idle by assumption. reflexivity.
Qed.

(** ** Mass *)

Lemma py_max_compat (x y b : Q) : x == y -> py_max x b == py_max y b.
Proof.
  intro H. unfold py_max.
  destruct (Qltb x b) eqn:Ex, (Qltb y b) eqn:Ey; try reflexivity.
  - apply Qltb_true in Ex. apply Qltb_false in Ey. lra.
  - apply Qltb_false in Ex. apply Qltb_true in Ey. lra.
  - exact H.
Qed.

Lemma new_mass_after_10s (now t0 : Q) :
  now - t0 == 10 -> new_mass now t0 3 == 3.3.
Proof.
  intro H. unfold new_mass.
  rewrite (py_max_compat _ _ 1.0 H).
  reflexivity.
Qed.

(** C5: with a source that always takes the decay branch, one pass turns a
    node with amplitude 0.5, access count 3 and a last access 10 seconds
    before the pass into one with amplitude 0.49, mass 3.3 and the pass
    time as last access. *)
Theorem pass_scenario (now : Q) (w : world) :
  always_decays source ->
  Forall2
    (fun e e' => scenario_before iso_timestamp now e -> scenario_after now e')
    (entities (vis w))
    (entities (vis (background_updater_pass iso_timestamp source now w))).
Proof.
  intro Hsrc. apply pass_pointwise.
  intros e k ((a & Ha & Haeq) & Hc & la & Ht & Hdt).
  destruct (visit_fields now e k) as (Hs & _ & Hm & _ & Hl & _).
  assert (Ea : amplitude e = a) by (unfold amplitude; rewrite Ha; reflexivity).
  rewrite Ea in Hs. rewrite Hc, Ht in Hm. simpl in Hm.
  rewrite decay_strain_decay in Hs; [|lra|apply Hsrc].
  rewrite py_max_decay in Hs by lra.
  repeat split.
  - eexists. split; [exact Hs|]. cbn [fst]. lra.
  - eexists. split; [exact Hm|].
    split; rewrite (new_mass_after_10s _ _ Hdt); reflexivity.
  - exact Hl.
Qed.

End EngineFacts.

(** C2 as stated fails: with the decay branch taken, node [n0] leaves the
    pass with resistance 0.5 and amplitude 0.49. *)
Lemma pass_resistance_differs :
  ~ Forall resistance_is_amplitude
      (entities (vis (background_updater_pass no_iso (const_source 0.5)
                        100 (world_of [n0])))).
Proof.
  intro H. inversion H as [|e' r (x & s & Hr & Hs & Heq) _]; subst.
  vm_compute in Hr, Hs. inversion Hr; inversion Hs; subst.
  vm_compute in Heq. discriminate.
Qed.

(** Stubbed sources. *)

Lemma const_source_unit (u : Q) :
  0 <= u -> u < 1 -> unit_interval (const_source u).
Proof.
  intros H0 H1 i. split; assumption.
Qed.

Lemma half_unit : unit_interval (const_source 0.5).
Proof.
  apply const_source_unit; lra.
Qed.

Lemma half_always_decays : always_decays (const_source 0.5).
Proof.
  intro i. unfold const_source. lra.
Qed.

Lemma amplitude_update_guarded_witness :
  unit_interval (const_source 0.5)
  /\ snd (update_entity no_iso (const_source 0.5) 100 n0 0) = 1%nat
  /\ strain_amplitude (fst (update_entity no_iso (const_source 0.5) 100 n0 0))
     = Some (py_max 0.0 (amplitude n0 * 0.98)).
Proof.
  split; [exact half_unit|].
  destruct (amplitude_update_guarded no_iso (const_source 0.5) 100 n0 0
              half_unit) as (_ & H & _).
  assert (Ha : 0 < amplitude n0) by reflexivity.
  assert (Hu : 0.05 <= const_source 0.5 0%nat) by discriminate.
  destruct (H Ha Hu) as (H1 & H2 & _).
  split; [exact H1 | exact H2].
Defined.

(** C3 as stated fails on a node of amplitude 0: the sample at its position
    is below 0.05, yet nothing is drawn, and the amplitude stays 0 instead
    of growing by an amount in [0.1, 0.2). *)
Lemma idle_node_never_spikes :
  let r := update_entity no_iso (const_source 0.0) 100 idle_word 0 in
  strain_amplitude (fst r) = Some 0.0
  /\ snd r = 0%nat
  /\ const_source 0.0 0%nat < 0.05
  /\ ~ (exists d, 0.1 <= d /\ d < 0.2
                  /\ amplitude (fst r) == amplitude idle_word + d)
  /\ ~ unguarded_update (const_source 0.0) (amplitude idle_word) 0
         (amplitude (fst r)) (snd r).
Proof.
  assert (Hspike :
    ~ (exists d, 0.1 <= d /\ d < 0.2 /\ 0.0 == 0.0 + d)).
  { intros (d & Hlo & _ & Heq). lra. }
  split; [reflexivity|]. split; [reflexivity|]. split; [reflexivity|].
  split; [exact Hspike|].
  intros (_ & H & _). apply Hspike. apply H. reflexivity.
Qed.

(** The scenario's node: amplitude 0.5, count 3, last access at 90. *)
Lemma n0_scenario_before : Forall (scenario_before no_iso 100) [n0].
Proof.
  constructor; [|constructor].
  split; [exists 0.5; split; reflexivity|]. split; [reflexivity|].
  exists (Num 90). split; reflexivity.
Qed.

Lemma pass_scenario_witness :
  always_decays (const_source 0.5)
  /\ Forall (scenario_before no_iso 100) [n0]
  /\ Forall (scenario_after 100)
       (entities (vis (background_updater_pass no_iso (const_source 0.5) 100
                         (world_of [n0])))).
Proof.
  split; [exact half_always_decays|]. split; [exact n0_scenario_before|].
  exact (Forall2_transfer _ _ _ _
           (pass_scenario no_iso (const_source 0.5) 100 (world_of [n0])
              half_always_decays)
           n0_scenario_before).
Defined.

(** ** Blank prompts *)

Lemma lstrip_blank (s : string) : whitespace_only s = true -> lstrip s = "".
Proof.
  induction s as [|c r IH]; simpl; [reflexivity|].
  intro H. apply andb_true_iff in H. destruct H as [Hc Hr].
  rewrite Hc. apply IH. exact Hr.
Qed.

Lemma lstrip_head (s : string) :
  lstrip s = "" /\ whitespace_only s = true
  \/ exists c r, lstrip s = String c r /\ is_space c = false.
Proof.
  induction s as [|c r IH]; simpl.
  - left. split; reflexivity.
  - destruct (is_space c) eqn:E; simpl.
    + exact IH.
    + right. exists c, r. split; [reflexivity | exact E].
Qed.

Lemma rstrip_keeps_head (c : ascii) (r : string) :
  is_space c = false -> rstrip (String c r) <> "".
Proof.
  intros E. simpl. destruct (rstrip r); [rewrite E|]; discriminate.
Qed.

(** [strip] returns the empty string exactly on blank text. *)
Lemma strip_empty_iff (s : string) :
  strip s = "" <-> whitespace_only s = true.
Proof.
  unfold strip. split.
  - intro H. destruct (lstrip_head s) as [[_ Hw] | (c & r & Hl & Hc)].
    + exact Hw.
    + rewrite Hl in H. exfalso. exact (rstrip_keeps_head c r Hc H).
  - intro H. rewrite (lstrip_blank s H). reflexivity.
Qed.

Section IngestionFacts.

Variable source : nat -> Q.

(** C10: a request whose prompt is missing, empty or blank is answered with
    the 400 error and leaves the whole state, store and queue included, as
    it was. *)
Theorem blank_prompt_rejected (data : option string) (time1 time2 : Q)
    (w : world) :
  whitespace_only (setdefault "" data) = true ->
  api_process_prompt source data time1 time2 w
  = (HttpError 400 "No prompt provided", w).
Proof.
  intro H. unfold api_process_prompt.
  apply strip_empty_iff in H. rewrite H. reflexivity.
Qed.

(** ** The dissonance loop only rewrites amplitudes *)

Lemma dissonance_step_frame (e : entity) (n : nat) :
  same_but_strain e (fst (fst (dissonance_step source e n))).
Proof.
  unfold dissonance_step, uniform, random, same_but_strain.
  destruct (Qltb (source n) 0.05); simpl; split;
    (reflexivity || (intros _; discriminate)).
Qed.

Lemma dissonance_loop_frame (es : list entity) (n : nat) :
  Forall2 same_but_strain es (fst (fst (dissonance_loop source es n))).
Proof.
  revert n. induction es as [|e r IH]; intro n; simpl.
  - constructor.
  - pose proof (dissonance_step_frame e n) as Hs.
    destruct (dissonance_step source e n) as [[e' c] n1].
    specialize (IH n1).
    destruct (dissonance_loop source r n1) as [[r' cs] n2].
    constructor; assumption.
Qed.

Lemma same_but_strain_refl (e : entity) : same_but_strain e e.
Proof.
  split; [reflexivity | auto].
Qed.

(** ** process_prompt *)

(** When the word loop completes, [process_prompt] returns normally; its
    response lists the nodes the loop created and the store holds the
    loop's entities, the first five with a rewritten amplitude. *)
Lemma process_prompt_ok (prompt : string) (now : Q) (w : world)
    (created : list nat) (es : list entity) (n : nat) :
  word_loop source now (split (lower prompt)) (entities (vis w)) [] (drawn w)
  = (Ok created, (es, n)) ->
  exists resp w',
    process_prompt source prompt now w = (Ok resp, w')
    /\ new_entities resp = created
    /\ Forall2 same_but_strain es (entities (vis w')).
Proof.
  intros H. unfold process_prompt. rewrite H.
  destruct (connect_loop source 0 _ es n) as [rels n1].
  pose proof (dissonance_loop_frame (firstn 5 es) n1) as Hd.
  destruct (dissonance_loop source (firstn 5 es) n1) as [[head changes] n2].
  eexists. eexists. split; [reflexivity|].
  split; [reflexivity|].
  cbn [entities vis with_entities fst] in *.
  rewrite <- (firstn_skipn 5 es) at 1.
  apply Forall2_app; [exact Hd|].
  induction (skipn 5 es); constructor; auto using same_but_strain_refl.
Qed.

(** ** The word loop *)

Lemma randint_range (a b : Z) (n : nat) :
  unit_interval source -> (a <= b)%Z ->
  (a <= fst (randint source a b n) <= b)%Z
  /\ snd (randint source a b n) = S n.
Proof.
  intros Hsrc Hab. unfold randint, random. cbn [fst snd].
  split; [|reflexivity].
  destruct (Hsrc n) as [Hlo Hhi].
  set (k := inject_Z (b - a + 1)).
  assert (Hk : 1 <= k).
  { unfold k. change 1 with (inject_Z 1). rewrite <- Zle_Qle. lia. }
  assert (H0 : 0 <= source n * k) by nra.
  assert (H1 : source n * k < k) by nra.
  apply Qfloor_resp_le in H0. change (Qfloor 0) with 0%Z in H0.
  assert (H2 : (Qfloor (source n * k) < b - a + 1)%Z).
  { rewrite Zlt_Qlt. fold k.
    eapply Qle_lt_trans; [apply Qfloor_le | exact H1]. }
  subst k. lia.
Qed.

Lemma word_loop_stop (now : Q) (word : string) (rest : list string)
    (es : list entity) (created : list nat) (n : nat) :
  is_stop_word word = true ->
  word_loop source now (word :: rest) es created n
  = word_loop source now rest es created n.
Proof.
  intro H. cbn [word_loop]. rewrite H. reflexivity.
Qed.

Lemma word_loop_new (now : Q) (word : string) (rest : list string)
    (es : list entity) (created : list nat) (n : nat) :
  is_stop_word word = false ->
  existing_entity word es = None ->
  word_loop source now (word :: rest) es created n
  = word_loop source now rest
      (es ++ [new_word_entity word now (fst (randint source 261 493 n))])
      (created ++ [List.length es]) (S n).
Proof.
  intros H1 H2. cbn [word_loop]. rewrite H1, H2. reflexivity.
Qed.

Lemma word_loop_seen (now : Q) (word : string) (rest : list string)
    (es : list entity) (created : list nat) (n : nat) (e : entity) (c : Z) :
  is_stop_word word = false ->
  existing_entity word es = Some e ->
  access_count e = Some c ->
  word_loop source now (word :: rest) es created n
  = word_loop source now rest
      (update_first (names word) (touch now c) es) created n.
Proof.
  intros H1 H2 H3. cbn [word_loop]. rewrite H1, H2, H3. reflexivity.
Qed.

Lemma existing_entity_app (word : string) (l1 l2 : list entity) :
  existing_entity word l1 = None ->
  existing_entity word (l1 ++ l2) = existing_entity word l2.
Proof.
  unfold existing_entity. induction l1 as [|e r IH]; simpl; [reflexivity|].
  destruct (names word e); [discriminate | exact IH].
Qed.

Lemma update_first_split (p : entity -> bool) (f : entity -> entity)
    (es : list entity) (e : entity) :
  find p es = Some e ->
  exists l1 l2, es = l1 ++ e :: l2 /\ update_first p f es = l1 ++ f e :: l2.
Proof.
  induction es as [|x r IH]; simpl; [discriminate|].
  destruct (p x) eqn:E.
  - intro H. injection H as ->. exists [], r. split; reflexivity.
  - intro H. destruct (IH H) as (l1 & l2 & -> & Hu).
    exists (x :: l1), l2. rewrite Hu. split; reflexivity.
Qed.

Lemma fresh_word_node_intro (word : string) (now : Q) (f : Z) (e : entity) :
  (261 <= f <= 493)%Z ->
  same_but_strain (new_word_entity word now f) e ->
  fresh_word_node word now e.
Proof.
  intros Hf [Heq Hs]. unfold fresh_word_node.
  destruct e. unfold forget_strain, set_strain_amplitude in Heq.
  simpl in *. injection Heq as -> -> -> -> -> -> -> -> ->.
  repeat split; try reflexivity.
  - exists f. split; [reflexivity | exact Hf].
  - apply Hs. discriminate.
Qed.

Lemma same_but_strain_fields (e e' : entity) :
  same_but_strain e e' ->
  name e' = name e /\ access_count e' = access_count e
  /\ last_accessed e' = last_accessed e.
Proof.
  intros [H _]. destruct e, e'.
  unfold forget_strain, set_strain_amplitude in H. simpl in *.
  injection H as -> -> -> -> -> -> -> -> ->. repeat split.
Qed.

(** C8: ingesting "the cat sat" into a store that has no node named "cat" or
    "sat" appends exactly two nodes, for "cat" and for "sat", each with
    access count 1 and every attribute present; ingesting a word whose node
    exists appends nothing and adds one to that node's access count. *)
Theorem ingest_creates_or_counts (now : Q) (w1 w2 : world)
    (prompt word : string) (e : entity) (c : Z) :
  unit_interval source ->
  existing_entity "cat" (entities (vis w1)) = None ->
  existing_entity "sat" (entities (vis w1)) = None ->
  split (lower prompt) = [word] ->
  is_stop_word word = false ->
  existing_entity word (entities (vis w2)) = Some e ->
  access_count e = Some c ->
  (exists resp w' olds cat sat,
      process_prompt source "the cat sat" now w1 = (Ok resp, w')
      /\ entities (vis w') = olds ++ [cat; sat]
      /\ Forall2 same_but_strain (entities (vis w1)) olds
      /\ fresh_word_node "cat" now cat
      /\ fresh_word_node "sat" now sat
      /\ new_entities resp = [List.length olds; S (List.length olds)])
  /\ (exists resp w' l1 l2 l1' e' l2',
         process_prompt source prompt now w2 = (Ok resp, w')
         /\ new_entities resp = []
         /\ entities (vis w2) = l1 ++ e :: l2
         /\ entities (vis w') = l1' ++ e' :: l2'
         /\ Forall2 same_but_strain l1 l1'
         /\ Forall2 same_but_strain l2 l2'
         /\ name e' = name e
         /\ access_count e' = Some (c + 1)%Z
         /\ last_accessed e' = Some (Num now)).
Proof.
  intros Hsrc Hcat Hsat Hsplit Hstop Hfind Hcount. split.
  - set (es := entities (vis w1)) in *.
    set (f1 := fst (randint source 261 493 (drawn w1))).
    set (f2 := fst (randint source 261 493 (S (drawn w1)))).
    assert (Hloop :
      word_loop source now (split (lower "the cat sat")) es [] (drawn w1)
      = (Ok [List.length es; S (List.length es)],
         ((es ++ [new_word_entity "cat" now f1])
            ++ [new_word_entity "sat" now f2],
          S (S (drawn w1))))).
    { change (split (lower "the cat sat")) with ["the"; "cat"; "sat"].
      rewrite word_loop_stop by reflexivity.
      rewrite word_loop_new by (reflexivity || assumption).
      rewrite word_loop_new;
        [| reflexivity | rewrite existing_entity_app by assumption; reflexivity].
      cbn [word_loop app]. rewrite length_app, Nat.add_1_r. reflexivity. }
    destruct (process_prompt_ok _ _ _ _ _ _ Hloop)
      as (resp & w' & Hp & Hnew & Hall).
    apply Forall2_app_inv_l in Hall.
    destruct Hall as (l' & lsat & Hl' & Hlsat & Heq).
    apply Forall2_app_inv_l in Hl'.
    destruct Hl' as (olds & lcat & Holds & Hlcat & ->).
    inversion Hlcat as [|? cat ? ? Hc Hnil1]; subst.
    inversion Hnil1; subst.
    inversion Hlsat as [|? sat ? ? Hs Hnil2]; subst.
    inversion Hnil2; subst.
    exists resp, w', olds, cat, sat.
    split; [exact Hp|].
    split; [rewrite Heq, <- app_assoc; reflexivity|].
    split; [exact Holds|].
    split; [eapply fresh_word_node_intro; [|exact Hc];
            apply randint_range; [assumption | lia]|].
    split; [eapply fresh_word_node_intro; [|exact Hs];
            apply randint_range; [assumption | lia]|].
    rewrite Hnew, (Forall2_length Holds). reflexivity.
  - assert (Hloop :
      word_loop source now (split (lower prompt)) (entities (vis w2)) []
        (drawn w2)
      = (Ok [],
         (update_first (names word) (touch now c) (entities (vis w2)),
          drawn w2))).
    { rewrite Hsplit.
      rewrite (word_loop_seen _ _ _ _ _ _ _ _ Hstop Hfind Hcount).
      reflexivity. }
    destruct (process_prompt_ok _ _ _ _ _ _ Hloop)
      as (resp & w' & Hp & Hnew & Hall).
    destruct (update_first_split (names word) (touch now c) _ _ Hfind)
      as (l1 & l2 & Hes & Hupd).
    rewrite Hupd in Hall.
    apply Forall2_app_inv_l in Hall.
    destruct Hall as (l1' & tl & Hl1 & Htl & Heq).
    inversion Htl as [|? e' ? l2' He Hl2]; subst.
    destruct (same_but_strain_fields _ _ He) as (Hn & Ha & Hl).
    exists resp, w', l1, l2, l1', e', l2'.
    repeat split; assumption.
Qed.

(** ** Reading back *)

(** C4, amended: a bulk read writes nothing: every node keeps its access
    count and its time of last access.  A node created by ingesting a new
    word and read back before any pass has the access count it was created
    with, 1, and the ingestion time as last access. *)
Theorem bulk_read_leaves_counts (now : Q) (w : world) (prompt word : string)
    (th : option Q) (ty : option string) :
  split (lower prompt) = [word] ->
  is_stop_word word = false ->
  existing_entity word (entities (vis w)) = None ->
  (forall w0 : world, snd (api_entities th ty w0) = w0)
  /\ exists resp w1 olds e,
       process_prompt source prompt now w = (Ok resp, w1)
       /\ entities (vis (snd (api_entities th ty w1))) = olds ++ [e]
       /\ Forall2 same_but_strain (entities (vis w)) olds
       /\ name e = word
       /\ access_count e = Some 1%Z
       /\ last_accessed e = Some (Num now).
Proof.
  intros Hsplit Hstop Hnone. split; [reflexivity|].
  assert (Hloop :
    word_loop source now (split (lower prompt)) (entities (vis w)) []
      (drawn w)
    = (Ok [List.length (entities (vis w))],
       (entities (vis w)
          ++ [new_word_entity word now
                (fst (randint source 261 493 (drawn w)))],
        S (drawn w)))).
  { rewrite Hsplit. rewrite word_loop_new by assumption. reflexivity. }
  destruct (process_prompt_ok _ _ _ _ _ _ Hloop)
    as (resp & w1 & Hp & _ & Hall).
  apply Forall2_app_inv_l in Hall.
  destruct Hall as (olds & tl & Holds & Htl & Heq).
  inversion Htl as [|? e ? ? He Hnil]; subst. inversion Hnil; subst.
  destruct (same_but_strain_fields _ _ He) as (Hn & Ha & Hl).
  exists resp, w1, olds, e. repeat split; assumption.
Qed.

End IngestionFacts.

(** ** Amplitudes never go below zero *)

Section Invariant.

Variable iso_timestamp : string -> option Q.
Variable source : nat -> Q.
Hypothesis source_unit : unit_interval source.

Lemma dissonance_nonneg (n : nat) : 0 <= 0.1 + (0.2 - 0.1) * source n.
Proof.
  destruct (source_unit n) as [H _]. lra.
Qed.

Lemma decay_strain_nonneg (s : Q) (n : nat) :
  0 <= s -> 0 <= fst (decay_strain source s n).
Proof.
  intro Hs. unfold decay_strain, uniform, random.
  destruct (Qltb 0.0 s); [|exact Hs].
  destruct (Qltb (source n) 0.05); cbn [fst].
  - pose proof (dissonance_nonneg (S n)). lra.
  - apply py_max_floor.
Qed.

Lemma update_entity_nonneg (now : Q) (e : entity) (n : nat) :
  nonneg_amplitude e ->
  nonneg_amplitude (fst (update_entity iso_timestamp source now e n)).
Proof.
  intro H. unfold nonneg_amplitude.
  destruct (visit_fields iso_timestamp source now e n) as (Hs & _).
  unfold amplitude at 1. rewrite Hs. cbn [setdefault].
  apply decay_strain_nonneg. exact H.
Qed.

Lemma pass_nonneg (now : Q) (w : world) :
  Forall nonneg_amplitude (entities (vis w)) ->
  Forall nonneg_amplitude
    (entities (vis (background_updater_pass iso_timestamp source now w))).
Proof.
  apply Forall2_transfer. apply pass_pointwise.
  intros e k. apply update_entity_nonneg.
Qed.

Lemma dissonance_step_nonneg (e : entity) (n : nat) :
  nonneg_amplitude e ->
  nonneg_amplitude (fst (fst (dissonance_step source e n))).
Proof.
  unfold nonneg_amplitude, dissonance_step, uniform, random.
  fold (amplitude e). intro H.
  destruct (Qltb (source n) 0.05); cbn [fst]; unfold amplitude at 1;
    cbn [strain_amplitude set_strain_amplitude setdefault].
  - pose proof (dissonance_nonneg (S n)). lra.
  - apply py_max_floor.
Qed.

Lemma dissonance_loop_nonneg (es : list entity) (n : nat) :
  Forall nonneg_amplitude es ->
  Forall nonneg_amplitude (fst (fst (dissonance_loop source es n))).
Proof.
  intro H. revert n. induction H as [|e r He _ IH]; intro n; simpl.
  - constructor.
  - pose proof (dissonance_step_nonneg e n He) as Hs.
    destruct (dissonance_step source e n) as [[e' c] n1].
    specialize (IH n1).
    destruct (dissonance_loop source r n1) as [[r' cs] n2].
    constructor; assumption.
Qed.

Lemma update_first_touch_nonneg (p : entity -> bool) (now : Q) (c : Z)
    (es : list entity) :
  Forall nonneg_amplitude es ->
  Forall nonneg_amplitude (update_first p (touch now c) es).
Proof.
  induction 1 as [|e r He Hr IH]; simpl; [constructor|].
  destruct (p e); constructor; assumption.
Qed.

Lemma word_loop_nonneg (now : Q) (words : list string) (es : list entity)
    (created : list nat) (n : nat) :
  Forall nonneg_amplitude es ->
  Forall nonneg_amplitude
    (fst (snd (word_loop source now words es created n))).
Proof.
  revert es created n.
  induction words as [|word rest IH]; intros es created n H;
    cbn [word_loop]; [exact H|].
  destruct (is_stop_word word); [apply IH; exact H|].
  destruct (existing_entity word es) as [e|].
  - destruct (access_count e) as [c|]; [|exact H].
    apply IH. apply update_first_touch_nonneg. exact H.
  - destruct (randint source 261 493 n) as [freq n1].
    apply IH. apply Forall_app. split; [exact H|].
    constructor; [|constructor]. unfold nonneg_amplitude, amplitude.
    cbn. lra.
Qed.

Lemma process_prompt_nonneg (prompt : string) (now : Q) (w : world) :
  Forall nonneg_amplitude (entities (vis w)) ->
  Forall nonneg_amplitude
    (entities (vis (snd (process_prompt source prompt now w)))).
Proof.
  intro H. unfold process_prompt.
  pose proof (word_loop_nonneg now (split (lower prompt)) _ [] (drawn w) H)
    as Hw.
  destruct (word_loop source now (split (lower prompt)) (entities (vis w))
              [] (drawn w)) as [[created | x] [es n]]; cbn [fst snd] in Hw.
  - destruct (connect_loop source 0 _ es n) as [rels n1].
    pose proof (dissonance_loop_nonneg (firstn 5 es) n1
                  (Forall_firstn _ 5 es Hw)) as Hd.
    destruct (dissonance_loop source (firstn 5 es) n1)
      as [[head changes] n2].
    cbn [fst snd entities vis with_entities] in *.
    apply Forall_app. split; [exact Hd | apply Forall_skipn; exact Hw].
  - exact Hw.
Qed.

Lemma api_process_prompt_nonneg (data : option string) (t1 t2 : Q)
    (w : world) :
  Forall nonneg_amplitude (entities (vis w)) ->
  Forall nonneg_amplitude
    (entities (vis (snd (api_process_prompt source data t1 t2 w)))).
Proof.
  intro H. unfold api_process_prompt.
  destruct (negb (truthy_str (strip (setdefault "" data)))); [exact H|].
  pose proof (process_prompt_nonneg (strip (setdefault "" data)) t1 w H)
    as Hp.
  destruct (process_prompt source (strip (setdefault "" data)) t1 w)
    as [[resp | x] w1]; exact Hp.
Qed.

Lemma serve_nonneg (r : request) (s : service) :
  Forall nonneg_amplitude (entities (vis (state s))) ->
  Forall nonneg_amplitude
    (entities (vis (state (serve iso_timestamp source r s)))).
Proof.
  intro H. destruct r as [t | data t1 t2 | th ty | c now]; cbn [serve state].
  - apply pass_nonneg. exact H.
  - apply api_process_prompt_nonneg. exact H.
  - exact H.
  - unfold stream_next.
    destruct (update_queue (state s)); cbn [state vis]; exact H.
Qed.

(** C7: starting from a store whose amplitudes are all at least 0, after any
    sequence of updater passes, ingestions, reads and stream deliveries
    every node's amplitude is at least 0. *)
Theorem amplitudes_stay_nonnegative (rs : list request) (s : service) :
  Forall nonneg_amplitude (entities (vis (state s))) ->
  Forall nonneg_amplitude
    (entities (vis (state (run iso_timestamp source rs s)))).
Proof.
  revert s. induction rs as [|r rest IH]; intros s H; simpl.
  - exact H.
  - apply IH. apply serve_nonneg. exact H.
Qed.

End Invariant.

(** ** The update queue *)

Lemma taken_app (l1 l2 : list delivery) :
  taken (l1 ++ l2) = taken l1 ++ taken l2.
Proof.
  induction l1 as [|d r IH]; simpl; [reflexivity|].
  destruct (dequeued d); rewrite IH; reflexivity.
Qed.

Section QueueFacts.

Variable iso_timestamp : string -> option Q.
Variable source : nat -> Q.

Lemma process_prompt_queue (prompt : string) (now : Q) (w : world) :
  update_queue (snd (process_prompt source prompt now w)) = update_queue w.
Proof.
  unfold process_prompt.
  destruct (word_loop source now (split (lower prompt)) (entities (vis w))
              [] (drawn w)) as [[created | x] [es n]]; [|reflexivity].
  destruct (connect_loop source 0 _ es n) as [rels n1].
  destruct (dissonance_loop source (firstn 5 es) n1) as [[head changes] n2].
  reflexivity.
Qed.

Lemma api_process_prompt_queue (data : option string) (t1 t2 : Q)
    (w : world) :
  update_queue (snd (api_process_prompt source data t1 t2 w))
  = update_queue w ++ publishes source (PostPrompt data t1 t2) w.
Proof.
  unfold publishes, api_process_prompt.
  destruct (negb (truthy_str (strip (setdefault "" data)))).
  - cbn [fst snd]. rewrite app_nil_r. reflexivity.
  - pose proof (process_prompt_queue (strip (setdefault "" data)) t1 w) as Hq.
    destruct (process_prompt source (strip (setdefault "" data)) t1 w)
      as [[resp | x] w1]; cbn [fst snd put update_queue] in *.
    + rewrite Hq. reflexivity.
    + rewrite Hq, app_nil_r. reflexivity.
Qed.

Lemma pass_queue (now : Q) (w : world) :
  update_queue (background_updater_pass iso_timestamp source now w)
  = update_queue w ++ [MUpdate now].
Proof.
  unfold background_updater_pass.
  destruct (update_entities iso_timestamp source now (entities (vis w))
              (drawn w)).
  reflexivity.
Qed.

(** A stream read hands the oldest queued message to the one client that
    reads, and removes it from the queue. *)
Lemma stream_next_dequeues (now : Q) (w : world) (m : message)
    (q : list message) :
  update_queue w = m :: q ->
  stream_next now w
  = (dumps (vis w) m, Some m,
     mkWorld (vis w) q (last_update_time w) (drawn w)).
Proof.
  intro H. unfold stream_next. rewrite H. reflexivity.
Qed.

Lemma serve_conserves (r : request) (s : service) :
  taken (log (serve iso_timestamp source r s))
    ++ update_queue (state (serve iso_timestamp source r s))
  = (taken (log s) ++ update_queue (state s))
      ++ publishes source r (state s).
Proof.
  destruct r as [t | data t1 t2 | th ty | c now]; cbn [serve state log].
  - rewrite pass_queue. cbn [publishes]. apply app_assoc.
  - rewrite api_process_prompt_queue. apply app_assoc.
  - cbn [publishes api_entities snd]. rewrite app_nil_r. reflexivity.
  - cbn [publishes]. unfold stream_next.
    destruct (update_queue (state s)) as [|m q] eqn:E;
      cbn [state log update_queue]; rewrite taken_app; cbn [taken dequeued];
      rewrite ?E, ?app_nil_r, <- ?app_assoc; reflexivity.
Qed.

(** C1, amended: all stream clients read one shared queue.  Whatever the
    order of passes, requests and stream reads, the messages handed to the
    clients, taken together in delivery order, followed by the messages
    still queued, are exactly the messages published, in publish order: a
    published batch goes to a single client, the one whose read dequeues
    it, and to that client once. *)
Theorem queue_hands_each_message_once (rs : list request) (s : service) :
  taken (log (run iso_timestamp source rs s))
    ++ update_queue (state (run iso_timestamp source rs s))
  = (taken (log s) ++ update_queue (state s))
      ++ published iso_timestamp source rs s.
Proof.
  revert s. induction rs as [|r rest IH]; intro s; simpl.
  - rewrite app_nil_r. reflexivity.
  - rewrite IH, serve_conserves, <- app_assoc. reflexivity.
Qed.

End QueueFacts.

(** C1 as stated fails: two clients are connected, one pass publishes one
    batch, and both clients read; the first is sent the batch and the second
    is sent a heartbeat, never the batch. *)
Lemma second_reader_gets_heartbeat :
  let s := run no_iso (const_source 0.5)
             [Tick 100; StreamNext 0 101; StreamNext 1 106]
             (fresh_service [n0]) in
  exists (ags : list agent) (ents : list entity),
    received 0 (log s) = [EvUpdate 100 ags ents]
    /\ received 1 (log s) = [EvHeartbeat 106]
    /\ ~ In (EvUpdate 100 ags ents) (received 1 (log s)).
Proof.
  eexists. eexists. split; [reflexivity|]. split; [reflexivity|].
  intros [H | []]. discriminate H.
Qed.

Lemma n0_nonneg : Forall nonneg_amplitude [n0].
Proof.
  constructor; [|constructor]. unfold nonneg_amplitude, amplitude. cbn. lra.
Qed.

Lemma amplitudes_stay_nonnegative_witness :
  unit_interval (const_source 0.5)
  /\ Forall nonneg_amplitude (entities (vis (state (fresh_service [n0]))))
  /\ Forall nonneg_amplitude
       (entities (vis (state
          (run no_iso (const_source 0.5)
             [Tick 100; PostPrompt (Some "the cat sat") 101 102; Tick 104]
             (fresh_service [n0]))))).
Proof.
  split; [exact half_unit|]. split; [exact n0_nonneg|].
  exact (amplitudes_stay_nonnegative no_iso (const_source 0.5) half_unit
           [Tick 100; PostPrompt (Some "the cat sat") 101 102; Tick 104]
           (fresh_service [n0]) n0_nonneg).
Defined.

Lemma blank_prompt_rejected_witness :
  whitespace_only (setdefault "" (Some "  ")) = true
  /\ api_process_prompt (const_source 0.5) (Some "  ") 100 101 (world_of [n0])
     = (HttpError 400 "No prompt provided", world_of [n0]).
Proof.
  split; [reflexivity|].
  apply (blank_prompt_rejected (const_source 0.5) (Some "  ") 100 101
           (world_of [n0])).
  reflexivity.
Defined.

Lemma bulk_read_leaves_counts_witness :
  split (lower "Cat") = ["cat"]
  /\ (forall w0 : world, snd (api_entities (Some 0.5) None w0) = w0)
  /\ exists resp w1 olds e,
       process_prompt (const_source 0.5) "Cat" 100 (world_of [n0])
       = (Ok resp, w1)
       /\ entities (vis (snd (api_entities (Some 0.5) None w1))) = olds ++ [e]
       /\ Forall2 same_but_strain (entities (vis (world_of [n0]))) olds
       /\ name e = "cat"
       /\ access_count e = Some 1%Z
       /\ last_accessed e = Some (Num 100).
Proof.
  split; [reflexivity|].
  apply (bulk_read_leaves_counts (const_source 0.5) 100 (world_of [n0])
           "Cat" "cat" (Some 0.5) None); reflexivity.
Defined.

(** C4 as stated fails: "cat" is ingested into an empty store and read back
    at once; its access count is the creation default 1, not 1 + 1, and its
    last access is the ingestion time. *)
Lemma read_back_count_is_one :
  let w1 := snd (process_prompt (const_source 0.5) "cat" 100 (world_of [])) in
  let w2 := snd (api_entities None None w1) in
  map access_count (entities (vis w2)) = [Some 1%Z]
  /\ map access_count (entities (vis w2)) <> [Some (1 + 1)%Z]
  /\ map last_accessed (entities (vis w2)) = [Some (Num 100)].
Proof.
  split; [reflexivity|]. split; [discriminate | reflexivity].
Qed.

Lemma ingest_creates_or_counts_witness :
  unit_interval (const_source 0.5)
  /\ existing_entity "cat" (entities (vis (world_of [n0]))) = None
  /\ existing_entity "sat" (entities (vis (world_of [n0]))) = None
  /\ split (lower "N0") = ["n0"]
  /\ is_stop_word "n0" = false
  /\ existing_entity "n0" (entities (vis (world_of [n0]))) = Some n0
  /\ access_count n0 = Some 3%Z
  /\ (exists resp w' olds cat sat,
         process_prompt (const_source 0.5) "the cat sat" 100 (world_of [n0])
         = (Ok resp, w')
         /\ entities (vis w') = olds ++ [cat; sat]
         /\ Forall2 same_but_strain (entities (vis (world_of [n0]))) olds
         /\ fresh_word_node "cat" 100 cat
         /\ fresh_word_node "sat" 100 sat
         /\ new_entities resp = [List.length olds; S (List.length olds)])
  /\ (exists resp w' l1 l2 l1' e' l2',
         process_prompt (const_source 0.5) "N0" 100 (world_of [n0])
         = (Ok resp, w')
         /\ new_entities resp = []
         /\ entities (vis (world_of [n0])) = l1 ++ n0 :: l2
         /\ entities (vis w') = l1' ++ e' :: l2'
         /\ Forall2 same_but_strain l1 l1'
         /\ Forall2 same_but_strain l2 l2'
         /\ name e' = name n0
         /\ access_count e' = Some (3 + 1)%Z
         /\ last_accessed e' = Some (Num 100)).
Proof.
  split; [exact half_unit|].
  do 6 (split; [reflexivity|]).
  apply (ingest_creates_or_counts (const_source 0.5) 100 (world_of [n0])
           (world_of [n0]) "N0" "n0" n0 3 half_unit); reflexivity.
Defined.

(** * Further properties of the service *)

(** ** Lists, continued *)

Lemma Forall2_right {A B : Type} (R : B -> Prop) (l : list A) (l' : list B) :
  Forall2 (fun _ b => R b) l l' -> Forall R l'.
Proof.
  induction 1; constructor; assumption.
Qed.

Lemma Forall2_compose {A : Type} (P R S : A -> A -> Prop)
    (l1 l2 l3 : list A) :
  (forall a b c, P a b -> R b c -> S a c) ->
  Forall2 P l1 l2 -> Forall2 R l2 l3 -> Forall2 S l1 l3.
Proof.
  intros HS H12. revert l3.
  induction H12 as [|a b l1 l2 Hab _ IH]; intros l3 H23;
    inversion H23; subst; constructor; eauto.
Qed.

Lemma Forall2_map_eq {A B : Type} (f : A -> B) (l l' : list A) :
  Forall2 (fun a a' => f a' = f a) l l' -> map f l' = map f l.
Proof.
  induction 1 as [|a a' l l' H _ IH]; simpl; congruence.
Qed.

(** ** What a pass does to every node *)

Section PassFacts.

Variable iso_timestamp : string -> option Q.
Variable source : nat -> Q.

Lemma pass_every (now : Q) (w : world) (P : entity -> Prop) :
  (forall e k, P (fst (update_entity iso_timestamp source now e k))) ->
  Forall P
    (entities (vis (background_updater_pass iso_timestamp source now w))).
Proof.
  intro HP. apply (Forall2_right P (entities (vis w))).
  apply pass_pointwise. intros e k. apply HP.
Qed.

Lemma pass_frame (now : Q) (w : world) :
  let w' := background_updater_pass iso_timestamp source now w in
  relationships (vis w') = relationships (vis w)
  /\ agents (vis w') = map (update_agent iso_timestamp now) (agents (vis w))
  /\ last_update_time w' = now.
Proof.
  unfold background_updater_pass.
  destruct (update_entities iso_timestamp source now (entities (vis w))
              (drawn w)).
  repeat split.
Qed.

Lemma pass_ident (now : Q) (w : world) :
  map ident
    (entities (vis (background_updater_pass iso_timestamp source now w)))
  = map ident (entities (vis w)).
Proof.
  apply Forall2_map_eq. apply pass_pointwise.
  intros e k. unfold update_entity.
  destruct (decay_strain source (setdefault 0.0 (strain_amplitude e)) k).
  reflexivity.
Qed.

(** The recency factor lies in (1, 2]. *)
Lemma new_mass_bounds (now last_access : Q) (c : Z) :
  (0 <= c)%Z -> mass_within_count (new_mass now last_access c) c.
Proof.
  intro Hc. unfold mass_within_count, new_mass.
  set (d := py_max (now - last_access) 1.0).
  assert (Hd : 1 <= d).
  { unfold d, py_max. destruct (Qltb (now - last_access) 1.0) eqn:E.
    - lra.
    - apply Qltb_false in E. lra. }
  assert (Hinv : 0 < / d) by (apply Qinv_lt_0_compat; lra).
  assert (Hone : d * / d == 1) by (apply Qmult_inv_r; lra).
  assert (Hle : / d <= 1) by nra.
  assert (Hq : 0 <= inject_Z c).
  { change 0 with (inject_Z 0). rewrite <- Zle_Qle. exact Hc. }
  unfold Qdiv. split; nra.
Qed.

End PassFacts.

(** ** Invariants of the whole service *)

Section ServiceInvariants.

Variable iso_timestamp : string -> option Q.
Variable source : nat -> Q.

(** A property of single nodes that every write of the code maintains. *)
Variable P : entity -> Prop.
Hypothesis P_visit :
  forall now e k, P e -> P (fst (update_entity iso_timestamp source now e k)).
Hypothesis P_touch : forall now c e, P e -> P (touch now c e).
Hypothesis P_new : forall word now f, P (new_word_entity word now f).
Hypothesis P_strain : forall a e, P e -> P (set_strain_amplitude (Some a) e).








End ServiceInvariants.





(** ** What no operation touches *)

Section FrameFacts.

Variable iso_timestamp : string -> option Q.
Variable source : nat -> Q.

Lemma process_prompt_frame (prompt : string) (now : Q) (w : world) :
  let w' := snd (process_prompt source prompt now w) in
  agents (vis w') = agents (vis w)
  /\ relationships (vis w') = relationships (vis w)
  /\ last_update_time w' = last_update_time w.
Proof.
  unfold process_prompt.
  destruct (word_loop source now (split (lower prompt)) (entities (vis w))
              [] (drawn w)) as [[created | x] [es n]];
    [|repeat split].
  destruct (connect_loop source 0 _ es n) as [rels n1].
  destruct (dissonance_loop source (firstn 5 es) n1) as [[head changes] n2].
  repeat split.
Qed.

Lemma api_process_prompt_frame (data : option string) (t1 t2 : Q)
    (w : world) :
  let w' := snd (api_process_prompt source data t1 t2 w) in
  agents (vis w') = agents (vis w)
  /\ relationships (vis w') = relationships (vis w)
  /\ last_update_time w' = last_update_time w.
Proof.
  unfold api_process_prompt.
  destruct (negb (truthy_str (strip (setdefault "" data))));
    [repeat split|].
  pose proof (process_prompt_frame (strip (setdefault "" data)) t1 w) as H.
  destruct (process_prompt source (strip (setdefault "" data)) t1 w)
    as [[resp | x] w1]; exact H.
Qed.

Lemma update_agent_ident (now : Q) (l : list agent) :
  map agent_ident (map (update_agent iso_timestamp now) l)
  = map agent_ident l.
Proof.
  rewrite map_map. apply map_ext. reflexivity.
Qed.

Lemma serve_frame (r : request) (s : service) :
  let s' := serve iso_timestamp source r s in
  relationships (vis (state s')) = relationships (vis (state s))
  /\ map agent_ident (agents (vis (state s')))
     = map agent_ident (agents (vis (state s))).
Proof.
  destruct r as [t | data t1 t2 | th ty | c now]; cbn [serve state].
  - destruct (pass_frame iso_timestamp source t (state s)) as (Hr & Ha & _).
    rewrite Hr, Ha, update_agent_ident. split; reflexivity.
  - destruct (api_process_prompt_frame data t1 t2 (state s)) as (Ha & Hr & _).
    rewrite Ha, Hr. split; reflexivity.
  - split; reflexivity.
  - unfold stream_next.
    destruct (update_queue (state s)); cbn [state vis]; split; reflexivity.
Qed.

(** X2: no sequence of updater passes, ingestions, reads and stream
    deliveries changes the stored relationships, nor the identity and the
    strain of any agent; the relationships [process_prompt] derives are only
    reported in its response. *)
Theorem run_keeps_edges_and_agents (rs : list request) (s : service) :
  let s' := run iso_timestamp source rs s in
  relationships (vis (state s')) = relationships (vis (state s))
  /\ map agent_ident (agents (vis (state s')))
     = map agent_ident (agents (vis (state s))).
Proof.
  revert s. induction rs as [|r rest IH]; intro s; cbn [run fold_left].
  - split; reflexivity.
  - destruct (IH (serve iso_timestamp source r s)) as [H1 H2].
    destruct (serve_frame r s) as [H3 H4].
    unfold run in H1, H2. rewrite H1, H2, H3, H4. split; reflexivity.
Qed.

(** *** Nodes are only appended *)

Lemma same_but_strain_ident (l l' : list entity) :
  Forall2 same_but_strain l l' -> map ident l' = map ident l.
Proof.
  intro H. apply Forall2_map_eq.
  eapply Forall2_impl; [|exact H].
  intros e e' [Heq _]. destruct e, e'.
  unfold forget_strain, set_strain_amplitude in Heq. simpl in Heq.
  injection Heq as -> -> -> -> -> -> -> -> ->. reflexivity.
Qed.

Lemma update_first_ident (p : entity -> bool) (now : Q) (c : Z)
    (es : list entity) :
  map ident (update_first p (touch now c) es) = map ident es.
Proof.
  induction es as [|e r IH]; simpl; [reflexivity|].
  destruct (p e); simpl; [reflexivity | rewrite IH; reflexivity].
Qed.

Lemma word_loop_appends (now : Q) (words : list string) (es : list entity)
    (created : list nat) (n : nat) :
  exists added,
    map ident (fst (snd (word_loop source now words es created n)))
    = map ident es ++ added.
Proof.
  revert es created n.
  induction words as [|word rest IH]; intros es created n; cbn [word_loop].
  - exists []. rewrite app_nil_r. reflexivity.
  - destruct (is_stop_word word); [apply IH|].
    destruct (existing_entity word es) as [e|].
    + destruct (access_count e) as [c|].
      * destruct (IH (update_first (names word) (touch now c) es) created n)
          as [added H].
        exists added. rewrite H, update_first_ident. reflexivity.
      * exists []. rewrite app_nil_r. reflexivity.
    + destruct (randint source 261 493 n) as [freq n1].
      destruct (IH (es ++ [new_word_entity word now freq])
                  (created ++ [List.length es]) n1) as [added H].
      eexists. rewrite H, map_app, <- app_assoc. reflexivity.
Qed.

(** The store after [process_prompt] holds the entities of the word loop,
    the first five with a rewritten amplitude, whether or not the loop
    raised. *)
Lemma process_prompt_entities (prompt : string) (now : Q) (w : world) :
  Forall2 same_but_strain
    (fst (snd (word_loop source now (split (lower prompt))
                 (entities (vis w)) [] (drawn w))))
    (entities (vis (snd (process_prompt source prompt now w)))).
Proof.
  unfold process_prompt.
  destruct (word_loop source now (split (lower prompt)) (entities (vis w))
              [] (drawn w)) as [[created | x] [es n]]; cbn [fst snd].
  - destruct (connect_loop source 0 _ es n) as [rels n1].
    pose proof (dissonance_loop_frame source (firstn 5 es) n1) as Hd.
    destruct (dissonance_loop source (firstn 5 es) n1)
      as [[head changes] n2].
    cbn [entities vis with_entities fst snd] in *.
    rewrite <- (firstn_skipn 5 es) at 1.
    apply Forall2_app; [exact Hd|].
    induction (skipn 5 es); constructor; auto using same_but_strain_refl.
  - cbn [entities vis with_entities].
    induction es; constructor; auto using same_but_strain_refl.
Qed.

Lemma serve_appends (r : request) (s : service) :
  exists added,
    map ident (entities (vis (state (serve iso_timestamp source r s))))
    = map ident (entities (vis (state s))) ++ added.
Proof.
  destruct r as [t | data t1 t2 | th ty | c now]; cbn [serve state].
  - exists []. rewrite pass_ident, app_nil_r. reflexivity.
  - unfold api_process_prompt.
    destruct (negb (truthy_str (strip (setdefault "" data)))).
    + exists []. rewrite app_nil_r. reflexivity.
    + set (prompt := strip (setdefault "" data)).
      destruct (word_loop_appends t1 (split (lower prompt))
                  (entities (vis (state s))) [] (drawn (state s)))
        as [added H].
      pose proof (process_prompt_entities prompt t1 (state s)) as Hp.
      apply same_but_strain_ident in Hp. rewrite H in Hp.
      exists added.
      destruct (process_prompt source prompt t1 (state s))
        as [[resp | x] w1]; exact Hp.
  - exists []. rewrite app_nil_r. reflexivity.
  - exists []. rewrite app_nil_r. unfold stream_next.
    destruct (update_queue (state s)); reflexivity.
Qed.

(** X3: nodes are never removed, reordered or renamed: after any sequence
    of passes, ingestions, reads and stream deliveries the store lists the
    nodes it had, with their id, name, type and description, followed by
    the nodes added since. *)
Theorem run_appends_nodes (rs : list request) (s : service) :
  exists added,
    map ident (entities (vis (state (run iso_timestamp source rs s))))
    = map ident (entities (vis (state s))) ++ added.
Proof.
  revert s. induction rs as [|r rest IH]; intro s; cbn [run fold_left].
  - exists []. rewrite app_nil_r. reflexivity.
  - destruct (IH (serve iso_timestamp source r s)) as [a2 H2].
    destruct (serve_appends r s) as [a1 H1].
    exists (a1 ++ a2). unfold run in H2. rewrite H2, H1, app_assoc.
    reflexivity.
Qed.

End FrameFacts.

(** ** Mass and amplitude over passes *)

Section PassNumbers.

Variable iso_timestamp : string -> option Q.
Variable source : nat -> Q.

(** X4: after a pass every node and every agent carries a mass, an access
    count and the pass time as last access; when the count is not negative
    the mass lies between the count and twice the count. *)
Theorem pass_mass_bounds (now : Q) (w : world) :
  let w' := background_updater_pass iso_timestamp source now w in
  Forall
    (fun e' =>
       last_accessed e' = Some (Num now)
       /\ exists m c, gravitational_mass e' = Some m
                      /\ access_count e' = Some c
                      /\ ((0 <= c)%Z -> mass_within_count m c))
    (entities (vis w'))
  /\ Forall
       (fun a' =>
          a_last_accessed a' = Some (Num now)
          /\ exists m c, a_gravitational_mass a' = Some m
                         /\ a_access_count a' = Some c
                         /\ ((0 <= c)%Z -> mass_within_count m c))
       (agents (vis w')).
Proof.
  split.
  - apply pass_every. intros e k.
    destruct (visit_fields iso_timestamp source now e k)
      as (_ & _ & Hm & Hc & Hl & _).
    split; [exact Hl|].
    eexists. eexists. split; [exact Hm|]. split; [exact Hc|].
    apply new_mass_bounds.
  - destruct (pass_frame iso_timestamp source now w) as (_ & Ha & _).
    rewrite Ha. apply Forall_forall. intros a' Hin.
    apply in_map_iff in Hin. destruct Hin as (a & <- & _).
    split; [reflexivity|].
    eexists. eexists. split; [reflexivity|]. split; [reflexivity|].
    apply new_mass_bounds.
Qed.

Lemma new_mass_interval (t1 t2 : Q) (c : Z) :
  1 <= t2 - t1 ->
  new_mass t2 t1 c == inject_Z c * (1 + 1 / (t2 - t1)).
Proof.
  intro H. unfold new_mass, py_max.
  assert (E : Qltb (t2 - t1) 1.0 = false) by (apply Qltb_false; lra).
  rewrite E. field. lra.
Qed.

(** X5: a pass resets every node's last access to the pass time, so from
    the second pass on the mass only reflects the time between passes: two
    passes at least one second apart leave every node with mass
    [count * (1 + 1 / interval)], whatever its last access was before. *)
Theorem second_pass_mass (t1 t2 : Q) (w : world) :
  1 <= t2 - t1 ->
  Forall2
    (fun e e'' =>
       exists m, gravitational_mass e'' = Some m
                 /\ m == inject_Z (setdefault 1%Z (access_count e))
                         * (1 + 1 / (t2 - t1)))
    (entities (vis w))
    (entities
       (vis (background_updater_pass iso_timestamp source t2
               (background_updater_pass iso_timestamp source t1 w)))).
Proof.
  intro Hint.
  apply (Forall2_compose
           (fun e e' =>
              access_count e' = Some (setdefault 1%Z (access_count e))
              /\ last_accessed e' = Some (Num t1))
           (fun e' e'' =>
              gravitational_mass e''
              = Some (new_mass t2
                        (last_access_of iso_timestamp t2
                           (setdefault (Num t2) (last_accessed e')))
                        (setdefault 1%Z (access_count e'))))
           _ _
           (entities (vis (background_updater_pass iso_timestamp source t1
                             w)))).
  - intros e e' e'' [Hc Hl] Hm. rewrite Hc, Hl in Hm. cbn in Hm.
    eexists. split; [exact Hm|]. apply new_mass_interval. exact Hint.
  - apply pass_pointwise. intros e k.
    destruct (visit_fields iso_timestamp source t1 e k)
      as (_ & _ & _ & Hc & Hl & _).
    split; assumption.
  - apply pass_pointwise. intros e k.
    destruct (visit_fields iso_timestamp source t2 e k) as (_ & _ & Hm & _).
    exact Hm.
Qed.

Lemma visit_decays (now : Q) (e : entity) (k : nat) :
  always_decays source ->
  0 <= amplitude e ->
  amplitude (fst (update_entity iso_timestamp source now e k))
  == amplitude e * 0.98.
Proof.
  intros Hsrc Ha.
  destruct (visit_fields iso_timestamp source now e k) as (Hs & _).
  unfold amplitude at 1. rewrite Hs. cbn [setdefault].
  destruct (Qlt_le_dec 0 (amplitude e)) as [Hpos | Hzero].
  - rewrite decay_strain_decay by (assumption || apply Hsrc).
    cbn [fst]. rewrite py_max_decay by assumption. reflexivity.
  - rewrite decay_strain_idle by assumption. cbn [fst]. lra.
Qed.

(** X6: with a source that never signals a contradiction, [k] passes in a
    row multiply every non-negative amplitude by [0.98 ** k]. *)
Theorem undisturbed_decay (ts : list Q) (s : service) :
  always_decays source ->
  Forall2
    (fun e e' =>
       0 <= amplitude e ->
       amplitude e' == amplitude e * decay_power (List.length ts))
    (entities (vis (state s)))
    (entities (vis (state (run iso_timestamp source (map Tick ts) s)))).
Proof.
  intro Hsrc. revert s.
  induction ts as [|t rest IH]; intro s; cbn [map run fold_left].
  - induction (entities (vis (state s))); constructor; [|assumption].
    intros _. cbn [List.length decay_power]. lra.
  - apply (Forall2_compose
             (fun e e1 =>
                0 <= amplitude e -> amplitude e1 == amplitude e * 0.98)
             (fun e1 e' =>
                0 <= amplitude e1 ->
                amplitude e' == amplitude e1 * decay_power (List.length rest))
             _ _
             (entities (vis (state (serve iso_timestamp source (Tick t) s))))).
    + intros e e1 e' H1 H2 Ha.
      specialize (H1 Ha).
      assert (Ha1 : 0 <= amplitude e1) by (rewrite H1; lra).
      rewrite (H2 Ha1), H1. cbn [List.length decay_power]. ring.
    + cbn [serve state]. apply pass_pointwise.
      intros e k Ha. apply visit_decays; assumption.
    + exact (IH (serve iso_timestamp source (Tick t) s)).
Qed.

End PassNumbers.

Lemma second_pass_mass_witness :
  1 <= 102 - 100
  /\ Forall2
       (fun e e'' =>
          exists m, gravitational_mass e'' = Some m
                    /\ m == inject_Z (setdefault 1%Z (access_count e))
                            * (1 + 1 / (102 - 100)))
       [n0]
       (entities
          (vis (background_updater_pass no_iso (const_source 0.5) 102
                  (background_updater_pass no_iso (const_source 0.5) 100
                     (world_of [n0]))))).
Proof.
  assert (H : 1 <= 102 - 100) by discriminate.
  split; [exact H|].
  exact (second_pass_mass no_iso (const_source 0.5) 100 102 (world_of [n0]) H).
Defined.

Lemma undisturbed_decay_witness :
  always_decays (const_source 0.5)
  /\ Forall2
       (fun e e' =>
          0 <= amplitude e ->
          amplitude e' == amplitude e * decay_power 3)
       [n0]
       (entities
          (vis (state (run no_iso (const_source 0.5)
                         (map Tick [100; 102; 104]) (fresh_service [n0]))))).
Proof.
  split; [exact half_always_decays|].
  exact (undisturbed_decay no_iso (const_source 0.5) [100; 102; 104]
           (fresh_service [n0]) half_always_decays).
Defined.

(** ** Bulk reads *)




Lemma filter_strain_ok (t : Q) (es l : list entity) :
  filter_strain t es = Ok l ->
  Forall (fun e => strain_amplitude e <> None) es.
Proof.
  revert l. induction es as [|e r IH]; intros l H; [constructor|].
  simpl in H. destruct (strain_amplitude e) eqn:E; [|discriminate].
  destruct (filter_strain t r) eqn:Er; [|discriminate].
  constructor; [rewrite E; discriminate | eapply IH; reflexivity].
Qed.


(** ** Statistics *)

Lemma count_if_le {A : Type} (p : A -> bool) (l : list A) :
  (count_if p l <= List.length l)%nat.
Proof.
  unfold count_if. induction l as [|x r IH]; simpl; [lia|].
  destruct (p x); simpl; lia.
Qed.

(** X8: the count of high-strain nodes reported by the statistics is the
    number of nodes a bulk read with threshold 0.8 returns, whenever that
    read succeeds. *)
Theorem stats_agree_with_bulk_read (v : visualizer) (l : list entity) :
  get_entities v (Some 0.8) None = Ok l ->
  high_strain_entities (get_graph_stats v) = List.length l.
Proof.
  unfold get_entities. cbn [truthy_float]. change (Qeq_bool 0.8 0) with false.
  cbn [negb]. intro H.
  destruct (filter_strain 0.8 (entities v)) as [l'|] eqn:E; [|discriminate].
  injection H as <-.
  rewrite (filter_strain_spec 0.8 _ (filter_strain_ok _ _ _ E)) in E.
  injection E as <-. reflexivity.
Qed.

Section StatsFacts.

Variable iso_timestamp : string -> option Q.
Variable source : nat -> Q.

(** X9: over any sequence of passes, ingestions, reads and stream
    deliveries the statistics keep the number of agents and of
    relationships, never report fewer nodes than before, and never report
    more high-strain, low-resistance or high-frequency nodes than nodes. *)
Theorem stats_over_run (rs : list request) (s : service) :
  let st := get_graph_stats (vis (state s)) in
  let st' := get_graph_stats (vis (state (run iso_timestamp source rs s))) in
  total_agents st' = total_agents st
  /\ total_relationships st' = total_relationships st
  /\ (total_entities st <= total_entities st')%nat
  /\ (high_strain_entities st' <= total_entities st')%nat
  /\ (low_resistance_entities st' <= total_entities st')%nat
  /\ (high_frequency_entities st' <= total_entities st')%nat.
Proof.
  cbn zeta. unfold get_graph_stats. cbn [total_agents total_relationships
    total_entities high_strain_entities low_resistance_entities
    high_frequency_entities].
  assert (H : relationships (vis (state (run iso_timestamp source rs s)))
              = relationships (vis (state s))
              /\ List.length (agents (vis (state (run iso_timestamp source
                                                    rs s))))
                 = List.length (agents (vis (state s)))
              /\ (List.length (entities (vis (state s)))
                  <= List.length
                       (entities (vis (state (run iso_timestamp source
                                                rs s)))))%nat).
  { revert s. induction rs as [|r rest IH]; intro s; cbn [run fold_left].
    - repeat split. lia.
    - destruct (IH (serve iso_timestamp source r s)) as (H1 & H2 & H3).
      destruct (serve_frame iso_timestamp source r s) as [H4 H5].
      destruct (serve_appends iso_timestamp source r s) as [added H6].
      unfold run in H1, H2, H3. rewrite H1, H2, H4.
      apply (f_equal (@List.length _)) in H5, H6.
      rewrite !length_map in H5. rewrite length_app, !length_map in H6.
      repeat split; lia. }
  destruct H as (Hr & Ha & He). rewrite Hr, Ha.
  repeat split; try exact He; apply count_if_le.
Qed.

End StatsFacts.

(** ** A batch is written out when it is read *)

Section StreamFacts.

Variable iso_timestamp : string -> option Q.
Variable source : nat -> Q.

Lemma serve_no_read_queue (r : request) (s : service) :
  no_stream_read [r] = true ->
  exists more,
    update_queue (state (serve iso_timestamp source r s))
    = update_queue (state s) ++ more.
Proof.
  destruct r as [t | data t1 t2 | th ty | c now]; cbn [serve state];
    intro H.
  - rewrite pass_queue. eexists. reflexivity.
  - rewrite api_process_prompt_queue. eexists. reflexivity.
  - exists []. rewrite app_nil_r. reflexivity.
  - discriminate.
Qed.

Lemma run_no_read_queue (rs : list request) (s : service) :
  no_stream_read rs = true ->
  exists more,
    update_queue (state (run iso_timestamp source rs s))
    = update_queue (state s) ++ more.
Proof.
  revert s. induction rs as [|r rest IH]; intros s H; cbn [run fold_left].
  - exists []. rewrite app_nil_r. reflexivity.
  - cbn [no_stream_read forallb] in H. apply andb_true_iff in H.
    destruct H as [Hr Hrest].
    destruct (IH (serve iso_timestamp source r s) Hrest) as [m2 H2].
    destruct (serve_no_read_queue r s) as [m1 H1].
    { cbn [no_stream_read forallb]. rewrite Hr. reflexivity. }
    exists (m1 ++ m2). unfold run in H2. rewrite H2, H1, app_assoc.
    reflexivity.
Qed.

(** X10: an update message refers to the live agent and entity lists.  When
    a pass at time [t] publishes on an empty queue and the batch is read
    only after further passes, ingestions or bulk reads, the client is sent
    the agents and entities as they are at the time of the read, under the
    timestamp [t] of the pass that published. *)
Theorem update_is_written_out_at_read_time (t now : Q) (rs : list request)
    (s : service) :
  update_queue (state s) = [] ->
  no_stream_read rs = true ->
  let w' := state (run iso_timestamp source (Tick t :: rs) s) in
  fst (fst (stream_next now w'))
  = EvUpdate t (agents (vis w')) (entities (vis w')).
Proof.
  intros Hq Hrs. cbn zeta. cbn [run fold_left].
  destruct (run_no_read_queue rs (serve iso_timestamp source (Tick t) s) Hrs)
    as [more H].
  assert (Hp : update_queue (state (serve iso_timestamp source (Tick t) s))
               = [MUpdate t]).
  { cbn [serve state]. rewrite pass_queue, Hq. reflexivity. }
  rewrite Hp in H. unfold run in H. unfold stream_next. rewrite H.
  reflexivity.
Qed.

End StreamFacts.

Lemma update_is_written_out_at_read_time_witness :
  update_queue (state (fresh_service [n0])) = []
  /\ no_stream_read [PostPrompt (Some "cat") 101 101; Tick 102] = true
  /\ fst (fst (stream_next 103
                 (state (run no_iso (const_source 0.5)
                           [Tick 100; PostPrompt (Some "cat") 101 101;
                            Tick 102]
                           (fresh_service [n0])))))
     = EvUpdate 100
         (agents (vis (state (run no_iso (const_source 0.5)
                                [Tick 100; PostPrompt (Some "cat") 101 101;
                                 Tick 102]
                                (fresh_service [n0])))))
         (entities (vis (state (run no_iso (const_source 0.5)
                                  [Tick 100; PostPrompt (Some "cat") 101 101;
                                   Tick 102]
                                  (fresh_service [n0]))))).
Proof.
  split; [reflexivity|]. split; [reflexivity|].
  exact (update_is_written_out_at_read_time no_iso (const_source 0.5) 100 103
           [PostPrompt (Some "cat") 101 101; Tick 102] (fresh_service [n0])
           eq_refl eq_refl).
Defined.

Lemma stats_agree_with_bulk_read_witness :
  get_entities (mkVisualizer [] [n0; idle_word] []) (Some 0.8) None = Ok []
  /\ high_strain_entities (get_graph_stats (mkVisualizer [] [n0; idle_word] []))
     = List.length (@nil entity).
Proof.
  split; [reflexivity|].
  exact (stats_agree_with_bulk_read (mkVisualizer [] [n0; idle_word] []) []
           eq_refl).
Defined.

(** ** Words of a prompt *)

Lemma lower_char_idempotent (c : ascii) :
  lower_char (lower_char c) = lower_char c.
Proof.
  destruct c as [[] [] [] [] [] [] [] []]; reflexivity.
Qed.

Lemma lower_is_lowercase (s : string) : lowercase (lower s).
Proof.
  induction s as [|c r IH]; simpl; [exact I|].
  split; [apply lower_char_idempotent | exact IH].
Qed.

Lemma lowercase_fixed (s : string) : lowercase s -> lower s = s.
Proof.
  induction s as [|c r IH]; simpl; [reflexivity|].
  intros [Hc Hr]. rewrite Hc, (IH Hr). reflexivity.
Qed.

Lemma rev_string_lowercase (acc s : string) :
  lowercase acc -> lowercase s -> lowercase (rev_string acc s).
Proof.
  revert acc. induction s as [|c r IH]; intros acc Ha Hs; simpl;
    [exact Ha|].
  destruct Hs as [Hc Hr]. apply IH; [split; assumption | exact Hr].
Qed.

Lemma flush_lowercase (cur : string) (k : list string) :
  lowercase cur -> Forall lowercase k -> Forall lowercase (flush cur k).
Proof.
  intros Hc Hk. destruct cur as [|c r]; [exact Hk|].
  cbn [flush]. constructor; [|exact Hk].
  apply rev_string_lowercase; [exact I | exact Hc].
Qed.

Lemma split_from_lowercase (cur s : string) :
  lowercase cur -> lowercase s -> Forall lowercase (split_from cur s).
Proof.
  revert cur. induction s as [|c r IH]; intros cur Hc Hs; simpl.
  - apply flush_lowercase; [exact Hc | constructor].
  - destruct Hs as [Hch Hr]. destruct (is_space c).
    + apply flush_lowercase; [exact Hc | apply IH; [exact I | exact Hr]].
    + apply IH; [split; assumption | exact Hr].
Qed.

(** The words [process_prompt] works on are in lower case. *)
Lemma prompt_words_lowercase (prompt : string) :
  Forall (fun word => lower word = word) (split (lower prompt)).
Proof.
  eapply Forall_impl; [exact lowercase_fixed|].
  apply split_from_lowercase; [exact I | apply lower_is_lowercase].
Qed.

Section WordFacts.

Variable source : nat -> Q.

Lemma known_app (word : string) (es l : list entity) :
  known word es -> known word (es ++ l).
Proof.
  unfold known, existing_entity. induction es as [|e r IH]; simpl.
  - intro H. contradiction H. reflexivity.
  - destruct (names word e); [intros _; discriminate | exact IH].
Qed.

Lemma known_new (word : string) (now : Q) (f : Z) (es : list entity) :
  lower word = word ->
  known word (es ++ [new_word_entity word now f]).
Proof.
  intro Hl. unfold known, existing_entity.
  induction es as [|e r IH]; simpl.
  - unfold names. cbn [name new_word_entity]. rewrite Hl, String.eqb_refl.
    discriminate.
  - destruct (names word e); [discriminate | exact IH].
Qed.

Lemma known_update_first (word : string) (p : entity -> bool) (now : Q)
    (c : Z) (es : list entity) :
  known word es -> known word (update_first p (touch now c) es).
Proof.
  unfold known, existing_entity. induction es as [|e r IH]; simpl.
  - intro H. exact H.
  - destruct (p e); simpl.
    + change (names word (touch now c e)) with (names word e).
      destruct (names word e); [intros _; discriminate | auto].
    + destruct (names word e); [intros _; discriminate | exact IH].
Qed.

Lemma known_first (word : string) (p : entity -> bool) (now : Q) (c : Z)
    (es : list entity) (e : entity) :
  existing_entity word es = Some e ->
  known word (update_first p (touch now c) es).
Proof.
  intro H. apply known_update_first. unfold known. rewrite H. discriminate.
Qed.

Lemma word_loop_known_mono (x : string) (now : Q) (words : list string)
    (es : list entity) (created : list nat) (n : nat) :
  known x es ->
  known x (fst (snd (word_loop source now words es created n))).
Proof.
  revert es created n.
  induction words as [|word rest IH]; intros es created n H;
    cbn [word_loop]; [exact H|].
  destruct (is_stop_word word); [apply IH; exact H|].
  destruct (existing_entity word es) as [e|].
  - destruct (access_count e) as [c|]; [|exact H].
    apply IH. apply known_update_first. exact H.
  - destruct (randint source 261 493 n) as [freq n1].
    apply IH. apply known_app. exact H.
Qed.

Lemma word_loop_covers (now : Q) (words : list string) (es : list entity)
    (created : list nat) (n : nat) (created' : list nat) :
  Forall (fun word => lower word = word) words ->
  fst (word_loop source now words es created n) = Ok created' ->
  forall word, In word words -> is_stop_word word = false ->
    known word (fst (snd (word_loop source now words es created n))).
Proof.
  intro Hlow. revert es created n.
  induction Hlow as [|word rest Hw _ IH]; intros es created n Hok x Hin Hx;
    [contradiction|].
  cbn [word_loop] in *.
  destruct (is_stop_word word) eqn:Es.
  - destruct Hin as [-> | Hin]; [congruence|]. apply IH; assumption.
  - destruct (existing_entity word es) as [e|] eqn:Ee.
    + destruct (access_count e) as [c|]; [|discriminate].
      destruct Hin as [<- | Hin]; [|apply IH; assumption].
      apply word_loop_known_mono. eapply known_first. exact Ee.
    + destruct (randint source 261 493 n) as [freq n1].
      destruct Hin as [<- | Hin]; [|apply IH; assumption].
      apply word_loop_known_mono. apply known_new. exact Hw.
Qed.

Lemma word_loop_count (now : Q) (words : list string) (es : list entity)
    (created : list nat) (n : nat) (created' : list nat) :
  fst (word_loop source now words es created n) = Ok created' ->
  (List.length (fst (snd (word_loop source now words es created n)))
   + List.length created
   = List.length es + List.length created')%nat.
Proof.
  revert es created n.
  induction words as [|word rest IH]; intros es created n Hok;
    cbn [word_loop] in *.
  - cbn [fst snd] in *. injection Hok as <-. reflexivity.
  - destruct (is_stop_word word); [apply IH; exact Hok|].
    destruct (existing_entity word es) as [e|].
    + destruct (access_count e) as [c|]; [|discriminate].
      rewrite (IH _ _ _ Hok). f_equal.
      rewrite <- (length_map ident (update_first _ _ es)), update_first_ident.
      apply length_map.
    + destruct (randint source 261 493 n) as [freq n1].
      pose proof (IH _ _ _ Hok) as H.
      rewrite !length_app in H. cbn [List.length] in H. lia.
Qed.

Lemma same_but_strain_known (word : string) (l l' : list entity) :
  Forall2 same_but_strain l l' -> known word l -> known word l'.
Proof.
  unfold known, existing_entity.
  induction 1 as [|e e' l l' He _ IH]; simpl; [auto|].
  destruct (same_but_strain_fields e e' He) as (Hn & _).
  unfold names. rewrite Hn.
  destruct (String.eqb (lower (name e)) word); [intros _; discriminate|].
  exact IH.
Qed.

(** X11: when [process_prompt] returns, every word of the prompt that is
    not a stop word has a node in the store, and the store has grown by
    exactly the nodes listed in the response. *)
Theorem ingested_words_have_nodes (prompt : string) (now : Q) (w w' : world)
    (resp : response) :
  process_prompt source prompt now w = (Ok resp, w') ->
  (forall word, In word (split (lower prompt)) ->
                is_stop_word word = false ->
                known word (entities (vis w')))
  /\ List.length (entities (vis w'))
     = (List.length (entities (vis w))
        + List.length (new_entities resp))%nat.
Proof.
  intro Hp.
  pose proof (process_prompt_entities source prompt now w) as Hent.
  pose proof (word_loop_covers now (split (lower prompt)) (entities (vis w))
                [] (drawn w)) as Hcov.
  pose proof (word_loop_count now (split (lower prompt)) (entities (vis w))
                [] (drawn w)) as Hcnt.
  rewrite Hp in Hent. cbn [snd] in Hent. unfold process_prompt in Hp.
  destruct (word_loop source now (split (lower prompt)) (entities (vis w))
              [] (drawn w)) as [[created | x] [es n]]; [|discriminate].
  destruct (connect_loop source 0 _ es n) as [rels n1].
  destruct (dissonance_loop source (firstn 5 es) n1) as [[head changes] n2].
  injection Hp as <- <-. cbn [fst snd new_entities] in *.
  split.
  - intros word Hin Hstop.
    apply (same_but_strain_known word es); [exact Hent|].
    exact (Hcov created (prompt_words_lowercase prompt) eq_refl word Hin
             Hstop).
  - rewrite <- (Forall2_length Hent).
    pose proof (Hcnt created eq_refl) as H. cbn [List.length] in H. lia.
Qed.

End WordFacts.

Lemma ingested_words_have_nodes_witness :
  exists resp w',
    process_prompt (const_source 0.5) "The N0 sat" 100 (world_of [n0])
    = (Ok resp, w')
    /\ known "sat" (entities (vis w'))
    /\ known "n0" (entities (vis w')).
Proof.
  destruct (process_prompt (const_source 0.5) "The N0 sat" 100
              (world_of [n0])) as [[resp | x] w'] eqn:E;
    [|vm_compute in E; discriminate E].
  exists resp, w'. split; [reflexivity|].
  destruct (ingested_words_have_nodes (const_source 0.5) "The N0 sat" 100
              (world_of [n0]) w' resp E) as [H _].
  split; apply H; try reflexivity.
  - right. right. left. reflexivity.
  - right. left. reflexivity.
Defined.

(** ** A failing ingestion *)

Section FailureFacts.

Variable source : nat -> Q.

Lemma existing_entity_app_some (word : string) (l1 l2 : list entity)
    (e : entity) :
  existing_entity word l1 = Some e ->
  existing_entity word (l1 ++ l2) = Some e.
Proof.
  unfold existing_entity. induction l1 as [|x r IH]; simpl; [discriminate|].
  destruct (names word x); [auto | exact IH].
Qed.

(** X12: an ingestion that fails is not rolled back.  When the first word
    of a two-word prompt is new and the node of the second has no
    [access_count], the request is answered with the 500 error and nothing
    is published, yet the node created for the first word stays in the
    store. *)
Theorem failed_ingestion_keeps_created_node (data : option string)
    (t1 t2 : Q) (w : world) (first second : string) (e : entity) :
  split (lower (strip (setdefault "" data))) = [first; second] ->
  is_stop_word first = false ->
  is_stop_word second = false ->
  existing_entity first (entities (vis w)) = None ->
  existing_entity second (entities (vis w)) = Some e ->
  access_count e = None ->
  exists f w',
    api_process_prompt source data t1 t2 w
    = (HttpError 500 "Error processing prompt: 'access_count'", w')
    /\ entities (vis w')
       = entities (vis w) ++ [new_word_entity first t1 f]
    /\ update_queue w' = update_queue w.
Proof.
  intros Hsplit Hs1 Hs2 Hnew Hold Hcount.
  unfold api_process_prompt.
  destruct (strip (setdefault "" data)) as [|c r] eqn:Ep;
    [discriminate Hsplit|].
  cbn [truthy_str negb]. unfold process_prompt. rewrite Hsplit.
  rewrite word_loop_new by assumption.
  cbn [word_loop]. rewrite Hs2.
  rewrite (existing_entity_app_some _ _ _ _ Hold), Hcount.
  eexists. eexists. split; [reflexivity|]. split; reflexivity.
Qed.

End FailureFacts.

Lemma failed_ingestion_keeps_created_node_witness :
  split (lower (strip (setdefault "" (Some " New old ")))) = ["new"; "old"]
  /\ existing_entity "old" (entities (vis (world_of [uncounted])))
     = Some uncounted
  /\ access_count uncounted = None
  /\ exists f w',
       api_process_prompt (const_source 0.5) (Some " New old ") 100 101
         (world_of [uncounted])
       = (HttpError 500 "Error processing prompt: 'access_count'", w')
       /\ entities (vis w')
          = entities (vis (world_of [uncounted]))
              ++ [new_word_entity "new" 100 f]
       /\ update_queue w' = update_queue (world_of [uncounted]).
Proof.
  do 3 (split; [reflexivity|]).
  apply (failed_ingestion_keeps_created_node (const_source 0.5)
           (Some " New old ") 100 101 (world_of [uncounted]) "new" "old"
           uncounted); reflexivity.
Defined.

(** * Records as loaded *)

(** ** Dicts *)

Lemma dict_get_set_same (k : string) (v : value) (d : dict) :
  dict_get k (dict_set k v d) = Some v.
Proof.
  induction d as [|[k' v'] r IH]; simpl.
  - rewrite String.eqb_refl. reflexivity.
  - destruct (String.eqb k' k) eqn:E; simpl.
    + rewrite String.eqb_refl. reflexivity.
    + rewrite E. exact IH.
Qed.

Lemma dict_get_set_other (k k0 : string) (v : value) (d : dict) :
  k <> k0 -> dict_get k (dict_set k0 v d) = dict_get k d.
Proof.
  intro Hne. induction d as [|[k' v'] r IH]; simpl.
  - destruct (String.eqb k0 k) eqn:E; [|reflexivity].
    apply String.eqb_eq in E. congruence.
  - destruct (String.eqb k' k0) eqn:E; simpl.
    + apply String.eqb_eq in E. subst k'.
      destruct (String.eqb k0 k) eqn:E2; [|reflexivity].
      apply String.eqb_eq in E2. congruence.
    + rewrite IH. reflexivity.
Qed.

Lemma dict_get_del_same (k : string) (d : dict) :
  dict_get k (dict_del k d) = None.
Proof.
  induction d as [|[k' v'] r IH]; simpl; [reflexivity|].
  destruct (String.eqb k' k) eqn:E; simpl; [exact IH|].
  rewrite E. exact IH.
Qed.

Lemma dict_get_del_other (k k0 : string) (d : dict) :
  k <> k0 -> dict_get k (dict_del k0 d) = dict_get k d.
Proof.
  intro Hne. induction d as [|[k' v'] r IH]; simpl; [reflexivity|].
  destruct (String.eqb k' k0) eqn:E; simpl.
  - apply String.eqb_eq in E. subst k'.
    destruct (String.eqb k0 k) eqn:E2; [|exact IH].
    apply String.eqb_eq in E2. congruence.
  - rewrite IH. reflexivity.
Qed.

Lemma dict_has_get (k : string) (d : dict) :
  dict_has k d = true <-> dict_get k d <> None.
Proof.
  unfold dict_has. destruct (dict_get k d); split; intro H;
    congruence || discriminate || reflexivity.
Qed.

Lemma dict_has_false (k : string) (d : dict) :
  dict_has k d = false <-> dict_get k d = None.
Proof.
  unfold dict_has. destruct (dict_get k d); split; intro H;
    congruence || discriminate || reflexivity.
Qed.

(** Writing a key that is absent keeps every binding. *)
Lemma dict_set_fresh (k k0 : string) (v v0 : value) (d : dict) :
  dict_get k0 d = None -> dict_get k d = Some v ->
  dict_get k (dict_set k0 v0 d) = Some v.
Proof.
  intros H0 Hk. rewrite dict_get_set_other; [exact Hk|].
  intros ->. congruence.
Qed.

Lemma dict_default_has (k : string) (v : value) (d : dict) :
  dict_has k (dict_default k v d) = true.
Proof.
  unfold dict_default. destruct (dict_has k d) eqn:E; [exact E|].
  unfold dict_has. rewrite dict_get_set_same. reflexivity.
Qed.

Lemma dict_default_other (k k0 : string) (v : value) (d : dict) :
  k <> k0 -> dict_get k (dict_default k0 v d) = dict_get k d.
Proof.
  intro Hne. unfold dict_default.
  destruct (dict_has k0 d); [reflexivity|].
  apply dict_get_set_other. exact Hne.
Qed.

Lemma dict_default_keeps (k k0 : string) (v v0 : value) (d : dict) :
  dict_get k d = Some v -> dict_get k (dict_default k0 v0 d) = Some v.
Proof.
  intro Hk. unfold dict_default.
  destruct (dict_has k0 d) eqn:E; [exact Hk|].
  apply dict_has_false in E. apply dict_set_fresh; assumption.
Qed.

Lemma dict_default_fixed (k : string) (v : value) (d : dict) :
  dict_has k d = true -> dict_default k v d = d.
Proof.
  intro H. unfold dict_default. rewrite H. reflexivity.
Qed.

Lemma dict_has_default_mono (k k0 : string) (v : value) (d : dict) :
  dict_has k d = true -> dict_has k (dict_default k0 v d) = true.
Proof.
  intro H. unfold dict_has in *.
  destruct (dict_get k d) as [x|] eqn:E; [|discriminate].
  rewrite (dict_default_keeps k k0 x v d E). reflexivity.
Qed.

(** ** Migration *)

Section MigrateFacts.

Variable iso_timestamp : string -> option Q.

Lemma add_gravity_fields_unfold (now : Q) (d : dict) :
  add_gravity_fields iso_timestamp now d
  = dict_default "access_count" (VNum 1)
      (dict_default "strain_amplitude" (VNum 0.0)
         (dict_default "last_accessed"
            (VNum (first_access iso_timestamp now
                     (dict_default "gravitational_mass" (VNum 1.0) d)))
            (dict_default "gravitational_mass" (VNum 1.0) d))).
Proof.
  reflexivity.
Qed.

Lemma add_gravity_fields_has (now : Q) (d : dict) :
  has_gravity_keys (add_gravity_fields iso_timestamp now d).
Proof.
  rewrite add_gravity_fields_unfold.
  unfold has_gravity_keys, gravity_keys.
  repeat constructor;
    repeat (apply dict_default_has || apply dict_has_default_mono).
Qed.

Lemma add_gravity_fields_keeps (now : Q) (d : dict) (k : string)
    (v : value) :
  dict_get k d = Some v ->
  dict_get k (add_gravity_fields iso_timestamp now d) = Some v.
Proof.
  intro H. rewrite add_gravity_fields_unfold.
  repeat apply dict_default_keeps. exact H.
Qed.

Lemma add_gravity_fields_other (now : Q) (d : dict) (k : string) :
  ~ In k gravity_keys ->
  dict_get k (add_gravity_fields iso_timestamp now d) = dict_get k d.
Proof.
  intro Hk. rewrite add_gravity_fields_unfold.
  assert (H1 : k <> "gravitational_mass")
    by (intros ->; apply Hk; simpl; tauto).
  assert (H2 : k <> "last_accessed") by (intros ->; apply Hk; simpl; tauto).
  assert (H3 : k <> "strain_amplitude")
    by (intros ->; apply Hk; simpl; tauto).
  assert (H4 : k <> "access_count") by (intros ->; apply Hk; simpl; tauto).
  rewrite (dict_default_other _ _ _ _ H4), (dict_default_other _ _ _ _ H3),
    (dict_default_other _ _ _ _ H2), (dict_default_other _ _ _ _ H1).
  reflexivity.
Qed.

Lemma add_gravity_fields_fixed (now : Q) (d : dict) :
  has_gravity_keys d -> add_gravity_fields iso_timestamp now d = d.
Proof.
  unfold has_gravity_keys, gravity_keys. intro H.
  inversion H as [|? ? H1 Ha]; subst. inversion Ha as [|? ? H2 Hb]; subst.
  inversion Hb as [|? ? H3 Hc]; subst. inversion Hc as [|? ? H4 _]; subst.
  rewrite add_gravity_fields_unfold.
  rewrite (dict_default_fixed _ _ _ H1), (dict_default_fixed _ _ _ H2),
    (dict_default_fixed _ _ _ H3).
  apply dict_default_fixed. exact H4.
Qed.

Lemma add_gravity_fields_has_mono (now : Q) (d : dict) (k : string) :
  dict_has k d = true ->
  dict_has k (add_gravity_fields iso_timestamp now d) = true.
Proof.
  intro H. unfold dict_has in *.
  destruct (dict_get k d) as [v|] eqn:E; [|discriminate].
  rewrite (add_gravity_fields_keeps now d k v E). reflexivity.
Qed.

Lemma rename_resistance_fixed (d : dict) :
  dict_get "strain_resistance" d = None
  \/ dict_has "node_resistance" d = true ->
  rename_resistance d = d.
Proof.
  unfold rename_resistance. intros [H | H].
  - rewrite H. reflexivity.
  - rewrite H. destruct (dict_get "strain_resistance" d); reflexivity.
Qed.

Lemma rename_resistance_settles (d : dict) :
  dict_get "strain_resistance" (rename_resistance d) = None
  \/ dict_has "node_resistance" (rename_resistance d) = true.
Proof.
  unfold rename_resistance.
  destruct (dict_get "strain_resistance" d) as [v|] eqn:E; [|left; exact E].
  destruct (dict_has "node_resistance" d) eqn:En; [right; exact En|].
  left. apply dict_get_del_same.
Qed.

Lemma rename_resistance_keeps (d : dict) (k : string) (v : value) :
  dict_get k d = Some v -> k <> "strain_resistance" ->
  dict_get k (rename_resistance d) = Some v.
Proof.
  intros Hk Hne. unfold rename_resistance.
  destruct (dict_get "strain_resistance" d) as [x|]; [|exact Hk].
  destruct (dict_has "node_resistance" d) eqn:En; [exact Hk|].
  rewrite dict_get_del_other by exact Hne.
  apply dict_set_fresh; [apply dict_has_false; exact En | exact Hk].
Qed.

Lemma rename_resistance_other (d : dict) (k : string) :
  k <> "strain_resistance" -> k <> "node_resistance" ->
  dict_get k (rename_resistance d) = dict_get k d.
Proof.
  intros H1 H2. unfold rename_resistance.
  destruct (dict_get "strain_resistance" d) as [x|]; [|reflexivity].
  destruct (dict_has "node_resistance" d); [reflexivity|].
  rewrite dict_get_del_other, dict_get_set_other by assumption. reflexivity.
Qed.

Lemma migrate_settled (t1 t2 : Q) (d : dict) :
  settled d ->
  migrate_entity iso_timestamp t2 (add_gravity_fields iso_timestamp t1 d)
  = (add_gravity_fields iso_timestamp t1 d, None).
Proof.
  intros [C1 C2]. set (D := add_gravity_fields iso_timestamp t1 d).
  assert (Hsr : dict_get "strain_resistance" D
                = dict_get "strain_resistance" d).
  { apply add_gravity_fields_other. simpl. intuition discriminate. }
  assert (Hsf : dict_get "strain_frequency" D
                = dict_get "strain_frequency" d).
  { apply add_gravity_fields_other. simpl. intuition discriminate. }
  assert (HD : rename_resistance D = D).
  { apply rename_resistance_fixed. destruct C1 as [C1 | C1].
    - left. rewrite Hsr. exact C1.
    - right. apply add_gravity_fields_has_mono. exact C1. }
  assert (Hfix : add_gravity_fields iso_timestamp t2 D = D).
  { apply add_gravity_fields_fixed. apply add_gravity_fields_has. }
  unfold migrate_entity. rewrite HD, Hsf.
  destruct C2 as [C2 | C2].
  - rewrite C2, Hfix. reflexivity.
  - destruct (dict_get "strain_frequency" d); [|rewrite Hfix; reflexivity].
    assert (Hmf : dict_has "musical_frequency" D = true)
      by (apply add_gravity_fields_has_mono; exact C2).
    rewrite Hmf, Hfix. reflexivity.
Qed.

(** What a record is before the four defaults are added, when the loop body
    completes. *)
Lemma migrate_entity_ok (now : Q) (d d' : dict) :
  migrate_entity iso_timestamp now d = (d', None) ->
  exists d2, settled d2 /\ d' = add_gravity_fields iso_timestamp now d2
             /\ (forall k v, dict_get k d = Some v ->
                             k <> "strain_resistance" ->
                             k <> "strain_frequency" ->
                             dict_get k d2 = Some v).
Proof.
  unfold migrate_entity. set (d1 := rename_resistance d).
  pose proof (rename_resistance_settles d) as C1. fold d1 in C1.
  assert (K1 : forall k v, dict_get k d = Some v ->
                           k <> "strain_resistance" ->
                           dict_get k d1 = Some v).
  { intros. apply rename_resistance_keeps; assumption. }
  destruct (dict_get "strain_frequency" d1) as [old|] eqn:Esf.
  - destruct (dict_has "musical_frequency" d1) eqn:Emf.
    + intro H. injection H as <-. exists d1.
      split; [split; [exact C1 | right; exact Emf]|].
      split; [reflexivity | auto].
    + destruct (as_number old) as [x|]; [|discriminate].
      intro H. injection H as <-.
      eexists. split; [|split; [reflexivity|]].
      * split.
        -- unfold dict_has.
           rewrite !dict_get_del_other, !dict_get_set_other by discriminate.
           exact C1.
        -- left. apply dict_get_del_same.
      * intros k v Hk H1 H2. rewrite dict_get_del_other by exact H2.
        apply dict_set_fresh; [apply dict_has_false; exact Emf | auto].
  - intro H. injection H as <-. exists d1.
    split; [split; [exact C1 | left; exact Esf]|].
    split; [reflexivity | auto].
Qed.

Lemma migrate_entity_idempotent (t1 t2 : Q) (d d' : dict) :
  migrate_entity iso_timestamp t1 d = (d', None) ->
  migrate_entity iso_timestamp t2 d' = (d', None).
Proof.
  intro H. destruct (migrate_entity_ok t1 d d' H) as (d2 & Hs & -> & _).
  apply migrate_settled. exact Hs.
Qed.

Lemma migrate_entities_ok (now : Q) (es es' : list dict) :
  migrate_entities iso_timestamp now es = (es', None) ->
  Forall2 (fun d d' => migrate_entity iso_timestamp now d = (d', None))
    es es'.
Proof.
  revert es'. induction es as [|d r IH]; intros es' H; simpl in H.
  - injection H as <-. constructor.
  - destruct (migrate_entity iso_timestamp now d) as [d' [x|]] eqn:E;
      [discriminate|].
    destruct (migrate_entities iso_timestamp now r) as [r' x] eqn:Er.
    injection H as <- ->. constructor; [exact E | apply IH; reflexivity].
Qed.

(** X13: when the migration completes, the store has as many records as
    before and every record has a mass, a last access, an amplitude and an
    access count. *)
Theorem migration_adds_gravity_keys (now : Q) (es es' : list dict) :
  migrate_entities iso_timestamp now es = (es', None) ->
  List.length es' = List.length es /\ Forall has_gravity_keys es'.
Proof.
  intro H. apply migrate_entities_ok in H.
  split; [symmetry; exact (Forall2_length H)|].
  apply (Forall2_right has_gravity_keys es).
  eapply Forall2_impl; [|exact H].
  intros d d' Hd. cbn beta.
  destruct (migrate_entity_ok now d d' Hd) as (d2 & _ & -> & _).
  apply add_gravity_fields_has.
Qed.

(** X14: the migration is idempotent: run again, at any later time, on the
    records it produced, it completes and changes nothing. *)
Theorem migration_idempotent (t1 t2 : Q) (es es' : list dict) :
  migrate_entities iso_timestamp t1 es = (es', None) ->
  migrate_entities iso_timestamp t2 es' = (es', None).
Proof.
  intro H. apply migrate_entities_ok in H.
  induction H as [|d d' r r' Hd _ IH]; simpl; [reflexivity|].
  rewrite (migrate_entity_idempotent t1 t2 d d' Hd), IH. reflexivity.
Qed.

(** X15: the migration never rewrites a value that is there: every binding
    of a record, the two legacy keys [strain_resistance] and
    [strain_frequency] apart, is found unchanged after it. *)
Theorem migration_keeps_values (now : Q) (es es' : list dict) :
  migrate_entities iso_timestamp now es = (es', None) ->
  Forall2
    (fun d d' =>
       forall k v, dict_get k d = Some v ->
                   k <> "strain_resistance" -> k <> "strain_frequency" ->
                   dict_get k d' = Some v)
    es es'.
Proof.
  intro H. apply migrate_entities_ok in H.
  eapply Forall2_impl; [|exact H].
  intros d d' Hd k v Hk H1 H2.
  destruct (migrate_entity_ok now d d' Hd) as (d2 & _ & -> & Hkeep).
  apply add_gravity_fields_keeps. apply Hkeep; assumption.
Qed.

End MigrateFacts.

Section LegacyFacts.

Variable iso_timestamp : string -> option Q.

Lemma note_of_range (x : Q) : In (note_of x) [261; 293; 329; 349; 440]%Z.
Proof.
  unfold note_of.
  destruct (Qle_bool x 5); [simpl; tauto|].
  destruct (Qle_bool x 10); [simpl; tauto|].
  destruct (Qle_bool x 15); [simpl; tauto|].
  destruct (Qle_bool x 20); simpl; tauto.
Qed.

(** X16: what the migration makes of the legacy keys.  A
    [strain_resistance] without [node_resistance] becomes the node
    resistance and is removed.  A numeric [strain_frequency] without
    [musical_frequency] is replaced by one of the five notes 261, 293, 329,
    349, 440, chosen by the ladder of thresholds 5, 10, 15, 20. *)
Theorem migration_converts_legacy (now : Q) (d d' : dict) :
  migrate_entity iso_timestamp now d = (d', None) ->
  (forall v, dict_get "strain_resistance" d = Some v ->
             dict_has "node_resistance" d = false ->
             dict_get "node_resistance" d' = Some v
             /\ dict_get "strain_resistance" d' = None)
  /\ (forall old x, dict_get "strain_frequency" d = Some old ->
                    dict_has "musical_frequency" d = false ->
                    as_number old = Some x ->
                    dict_get "musical_frequency" d'
                    = Some (VNum (inject_Z (note_of x)))
                    /\ dict_get "strain_frequency" d' = None
                    /\ In (note_of x) [261; 293; 329; 349; 440]%Z).
Proof.
  intro H. split.
  - intros v Hsr Hnr.
    assert (H1 : dict_get "node_resistance" (rename_resistance d) = Some v).
    { unfold rename_resistance. rewrite Hsr, Hnr.
      rewrite dict_get_del_other by discriminate.
      apply dict_get_set_same. }
    assert (H2 : dict_get "strain_resistance" (rename_resistance d) = None).
    { unfold rename_resistance. rewrite Hsr, Hnr. apply dict_get_del_same. }
    unfold migrate_entity in H.
    destruct (dict_get "strain_frequency" (rename_resistance d)) as [old|];
      [destruct (dict_has "musical_frequency" (rename_resistance d)) eqn:Emf;
       [|destruct (as_number old) as [x|]; [|discriminate]]|];
      injection H as <-;
      (split;
       [apply add_gravity_fields_keeps
       |rewrite add_gravity_fields_other by (simpl; intuition discriminate)]);
      rewrite ?dict_get_del_other, ?dict_get_set_other by discriminate;
      assumption.
  - intros old x Hsf Hmf Hnum.
    assert (H1 : dict_get "strain_frequency" (rename_resistance d)
                 = Some old).
    { rewrite rename_resistance_other by discriminate. exact Hsf. }
    assert (H2 : dict_has "musical_frequency" (rename_resistance d) = false).
    { unfold dict_has. rewrite rename_resistance_other by discriminate.
      exact Hmf. }
    unfold migrate_entity in H. rewrite H1, H2, Hnum in H.
    injection H as <-. split; [|split].
    + apply add_gravity_fields_keeps.
      rewrite dict_get_del_other by discriminate. apply dict_get_set_same.
    + rewrite add_gravity_fields_other by (simpl; intuition discriminate).
      apply dict_get_del_same.
    + apply note_of_range.
Qed.

Lemma migrate_entity_type_error (now : Q) (d : dict) (old : value) :
  dict_get "strain_frequency" d = Some old ->
  dict_has "musical_frequency" d = false ->
  as_number old = None ->
  migrate_entity iso_timestamp now d = (rename_resistance d, Some TypeError).
Proof.
  intros Hsf Hmf Hnum. unfold migrate_entity.
  rewrite rename_resistance_other by discriminate. rewrite Hsf.
  unfold dict_has. rewrite rename_resistance_other by discriminate.
  fold (dict_has "musical_frequency" d). rewrite Hmf, Hnum. reflexivity.
Qed.

(** X17: a [strain_frequency] that is not a number stops the migration with
    [TypeError]: the records before it are migrated, the record itself has
    only had its resistance renamed, and the records after it are left as
    they were loaded. *)
Theorem migration_stops_at_bad_frequency (now : Q)
    (before before' after : list dict) (bad : dict) (old : value) :
  migrate_entities iso_timestamp now before = (before', None) ->
  dict_get "strain_frequency" bad = Some old ->
  dict_has "musical_frequency" bad = false ->
  as_number old = None ->
  migrate_entities iso_timestamp now (before ++ bad :: after)
  = (before' ++ rename_resistance bad :: after, Some TypeError).
Proof.
  intros H Hsf Hmf Hnum. apply migrate_entities_ok in H.
  induction H as [|d d' r r' Hd _ IH]; simpl.
  - rewrite (migrate_entity_type_error now bad old Hsf Hmf Hnum).
    reflexivity.
  - rewrite Hd, IH. reflexivity.
Qed.

End LegacyFacts.

(** ** Nodes for the canvas *)

Lemma dict_get_update (base d : dict) (k : string) :
  well_keyed d ->
  dict_get k (dict_update base d)
  = match dict_get k d with
    | Some v => Some v
    | None => dict_get k base
    end.
Proof.
  unfold well_keyed, dict_update. revert base.
  induction d as [|[k1 v1] r IH]; intros base Hnd; simpl; [reflexivity|].
  inversion Hnd as [|? ? Hnotin Hr]; subst.
  rewrite (IH _ Hr). cbn [fst snd].
  destruct (String.eqb k1 k) eqn:E.
  - apply String.eqb_eq in E. subst k1.
    assert (Hnone : dict_get k r = None).
    { clear - Hnotin. induction r as [|[k2 v2] r IH]; simpl; [reflexivity|].
      destruct (String.eqb k2 k) eqn:E2.
      - apply String.eqb_eq in E2. subst k2. exfalso. apply Hnotin.
        left. reflexivity.
      - apply IH. intro Hin. apply Hnotin. right. exact Hin. }
    rewrite Hnone. apply dict_get_set_same.
  - destruct (dict_get k r); [reflexivity|].
    apply dict_get_set_other. intros ->. rewrite String.eqb_refl in E.
    discriminate.
Qed.

(** X18: in the node built for an agent the agent's own bindings win over
    the explicit ones.  Every key of the agent is reported with the agent's
    value, so the node's name is the agent's [name] whenever it has one and
    its [agent] title only otherwise; [type], [strain] and [isAgent] read
    "throne", the current strain and [True] only when the agent has no such
    key. *)
Theorem agent_node_own_keys_win (agent node : dict) :
  well_keyed agent ->
  agent_node agent = inr node ->
  (forall k v, dict_get k agent = Some v -> dict_get k node = Some v)
  /\ dict_get "name" node
     = match dict_get "name" agent with
       | Some v => Some v
       | None => dict_get "agent" agent
       end
  /\ (dict_get "type" agent = None ->
      dict_get "type" node = Some (VStr "throne"))
  /\ (dict_get "strain" agent = None ->
      dict_get "strain" node = dict_get "current_strain" agent)
  /\ (dict_get "isAgent" agent = None ->
      dict_get "isAgent" node = Some (VBool true)).
Proof.
  intros Hwk H. unfold agent_node, dict_item in H.
  destruct (dict_get "id" agent) as [i|]; [|discriminate].
  destruct (dict_get "agent" agent) as [a|]; [|discriminate].
  destruct (dict_get "current_strain" agent) as [st|]; [|discriminate].
  destruct (dict_get "domain" agent) as [dom|]; [|discriminate].
  injection H as <-.
  split; [|split; [|split; [|split]]].
  - intros k v Hk. rewrite dict_get_update by exact Hwk. rewrite Hk.
    reflexivity.
  - rewrite dict_get_update by exact Hwk.
    destruct (dict_get "name" agent); reflexivity.
  - intro Hn. rewrite dict_get_update by exact Hwk. rewrite Hn. reflexivity.
  - intro Hn. rewrite dict_get_update by exact Hwk. rewrite Hn. reflexivity.
  - intro Hn. rewrite dict_get_update by exact Hwk. rewrite Hn. reflexivity.
Qed.

(** X19: in the node built for an entity every key of the entity is
    reported with the entity's value; [strain] is the amplitude, or 0.0 when
    the entity has none, [entityType] is the entity type, or "concept_type",
    and [type] and [isAgent] read "entity" and [False], each only when the
    entity has no key of that name. *)
Theorem entity_node_own_keys_win (e node : dict) :
  well_keyed e ->
  entity_node e = inr node ->
  (forall k v, dict_get k e = Some v -> dict_get k node = Some v)
  /\ (dict_get "strain" e = None ->
      dict_get "strain" node
      = Some (match dict_get "strain_amplitude" e with
              | Some v => v
              | None => VNum 0.0
              end))
  /\ (dict_get "entityType" e = None ->
      dict_get "entityType" node
      = Some (match dict_get "entity_type" e with
              | Some v => v
              | None => VStr "concept_type"
              end))
  /\ (dict_get "type" e = None ->
      dict_get "type" node = Some (VStr "entity"))
  /\ (dict_get "isAgent" e = None ->
      dict_get "isAgent" node = Some (VBool false)).
Proof.
  intros Hwk H. unfold entity_node, dict_item in H.
  destruct (dict_get "id" e) as [i|]; [|discriminate].
  destruct (dict_get "name" e) as [nm|]; [|discriminate].
  injection H as <-.
  split; [|split; [|split; [|split]]].
  - intros k v Hk. rewrite dict_get_update by exact Hwk. rewrite Hk.
    reflexivity.
  - intro Hn. rewrite dict_get_update by exact Hwk. rewrite Hn. reflexivity.
  - intro Hn. rewrite dict_get_update by exact Hwk. rewrite Hn. reflexivity.
  - intro Hn. rewrite dict_get_update by exact Hwk. rewrite Hn. reflexivity.
  - intro Hn. rewrite dict_get_update by exact Hwk. rewrite Hn. reflexivity.
Qed.

Lemma nodes_of_ok (f : dict -> failure + dict) (ready : dict -> Prop)
    (l : list dict) :
  (forall d, ready d <-> exists n, f d = inr n) ->
  (Forall ready l <-> exists ns, nodes_of f l = inr ns)
  /\ (forall ns, nodes_of f l = inr ns -> List.length ns = List.length l).
Proof.
  intro Hf. induction l as [|d r [IH1 IH2]]; simpl.
  - split; [split; [eexists; reflexivity | constructor]|].
    intros ns H. injection H as <-. reflexivity.
  - split; [split|].
    + intro H. inversion H as [|? ? Hd Hr]; subst.
      apply Hf in Hd. destruct Hd as [n ->].
      apply IH1 in Hr. destruct Hr as [ns ->]. eexists. reflexivity.
    + intros [ns H].
      destruct (f d) as [x | n] eqn:E; [discriminate|].
      destruct (nodes_of f r) as [x | ns'] eqn:Er; [discriminate|].
      constructor; [apply Hf; eexists; exact E|].
      apply IH1. eexists. reflexivity.
    + intros ns H.
      destruct (f d) as [x | n] eqn:E; [discriminate|].
      destruct (nodes_of f r) as [x | ns'] eqn:Er; [discriminate|].
      injection H as <-. simpl. rewrite (IH2 ns' eq_refl). reflexivity.
Qed.

Lemma agent_node_ready (d : dict) :
  agent_ready d <-> exists n, agent_node d = inr n.
Proof.
  unfold agent_ready, agent_node, dict_item, dict_has. split.
  - intros (H1 & H2 & H3 & H4).
    destruct (dict_get "id" d); [|discriminate].
    destruct (dict_get "agent" d); [|discriminate].
    destruct (dict_get "current_strain" d); [|discriminate].
    destruct (dict_get "domain" d); [|discriminate].
    eexists. reflexivity.
  - intros [n H].
    destruct (dict_get "id" d); [|discriminate].
    destruct (dict_get "agent" d); [|discriminate].
    destruct (dict_get "current_strain" d); [|discriminate].
    destruct (dict_get "domain" d); [|discriminate].
    repeat split.
Qed.

Lemma entity_node_ready (d : dict) :
  entity_ready d <-> exists n, entity_node d = inr n.
Proof.
  unfold entity_ready, entity_node, dict_item, dict_has. split.
  - intros (H1 & H2).
    destruct (dict_get "id" d); [|discriminate].
    destruct (dict_get "name" d); [|discriminate].
    eexists. reflexivity.
  - intros [n H].
    destruct (dict_get "id" d); [|discriminate].
    destruct (dict_get "name" d); [|discriminate].
    repeat split.
Qed.

(** X20: [get_all_nodes] returns exactly when every agent has its [id],
    [agent], [current_strain] and [domain] and every entity its [id] and
    [name]; otherwise it raises [KeyError].  When it returns there is one
    node for each agent and each entity. *)
Theorem get_all_nodes_returns_iff (ags ents : list dict) :
  (Forall agent_ready ags /\ Forall entity_ready ents
   <-> exists nodes, get_all_nodes ags ents = inr nodes)
  /\ (forall nodes, get_all_nodes ags ents = inr nodes ->
                    List.length nodes
                    = (List.length ags + List.length ents)%nat)
  /\ (forall x, get_all_nodes ags ents = inl x ->
                exists k, x = MissingKey k).
Proof.
  destruct (nodes_of_ok agent_node agent_ready ags agent_node_ready)
    as [Ha1 Ha2].
  destruct (nodes_of_ok entity_node entity_ready ents entity_node_ready)
    as [He1 He2].
  unfold get_all_nodes. split; [split|split].
  - intros [Ha He]. apply Ha1 in Ha. apply He1 in He.
    destruct Ha as [a ->], He as [e ->]. eexists. reflexivity.
  - intros [nodes H].
    destruct (nodes_of agent_node ags) as [x | a]; [discriminate|].
    destruct (nodes_of entity_node ents) as [x | e]; [discriminate|].
    split; [apply Ha1 | apply He1]; eexists; reflexivity.
  - intros nodes H.
    destruct (nodes_of agent_node ags) as [x | a]; [discriminate|].
    destruct (nodes_of entity_node ents) as [x | e]; [discriminate|].
    injection H as <-. rewrite length_app, (Ha2 a eq_refl), (He2 e eq_refl).
    reflexivity.
  - assert (Hk : forall f l x,
               (forall d y, f d = inl y -> exists k, y = MissingKey k) ->
               nodes_of f l = inl x -> exists k, x = MissingKey k).
    { intros f l x Hf. induction l as [|d r IH]; simpl; [discriminate|].
      destruct (f d) as [y | n] eqn:E.
      - intro H. injection H as <-. exact (Hf d y E).
      - destruct (nodes_of f r) as [y | ns]; [|discriminate].
        intro H. injection H as <-. apply IH. reflexivity. }
    intros x H.
    destruct (nodes_of agent_node ags) as [y | a] eqn:Ea.
    + injection H as <-. apply (Hk agent_node ags y); [|exact Ea].
      intros d z. unfold agent_node, dict_item.
      repeat match goal with
             | |- context [dict_get ?k d] => destruct (dict_get k d)
             end; intro Hz; try discriminate; injection Hz as <-;
        eexists; reflexivity.
    + destruct (nodes_of entity_node ents) as [y | e] eqn:Ee; [|discriminate].
      injection H as <-. apply (Hk entity_node ents y); [|exact Ee].
      intros d z. unfold entity_node, dict_item.
      destruct (dict_get "id" d); [|intro Hz; injection Hz as <-;
                                    eexists; reflexivity].
      destruct (dict_get "name" d); [discriminate|].
      intro Hz; injection Hz as <-; eexists; reflexivity.
Qed.

(** ** Instances *)

Lemma sample_migrates :
  migrate_entities no_iso 100 [legacy_record] = ([migrated_record], None).
Proof.
  reflexivity.
Qed.

Lemma migration_adds_gravity_keys_witness :
  migrate_entities no_iso 100 [legacy_record] = ([migrated_record], None)
  /\ List.length [migrated_record] = List.length [legacy_record]
  /\ Forall has_gravity_keys [migrated_record].
Proof.
  split; [exact sample_migrates|].
  exact (migration_adds_gravity_keys no_iso 100 [legacy_record]
           [migrated_record] sample_migrates).
Defined.

Lemma migration_idempotent_witness :
  migrate_entities no_iso 100 [legacy_record] = ([migrated_record], None)
  /\ migrate_entities no_iso 250 [migrated_record]
     = ([migrated_record], None).
Proof.
  split; [exact sample_migrates|].
  exact (migration_idempotent no_iso 100 250 [legacy_record]
           [migrated_record] sample_migrates).
Defined.

Lemma migration_keeps_values_witness :
  migrate_entities no_iso 100 [legacy_record] = ([migrated_record], None)
  /\ Forall2
       (fun d d' =>
          forall k v, dict_get k d = Some v ->
                      k <> "strain_resistance" -> k <> "strain_frequency" ->
                      dict_get k d' = Some v)
       [legacy_record] [migrated_record].
Proof.
  split; [exact sample_migrates|].
  exact (migration_keeps_values no_iso 100 [legacy_record] [migrated_record]
           sample_migrates).
Defined.

Lemma migration_converts_legacy_witness :
  migrate_entity no_iso 100 legacy_record = (migrated_record, None)
  /\ dict_get "node_resistance" migrated_record = Some (VNum 0.1)
  /\ dict_get "strain_resistance" migrated_record = None
  /\ dict_get "musical_frequency" migrated_record
     = Some (VNum (inject_Z (note_of 20)))
  /\ dict_get "strain_frequency" migrated_record = None.
Proof.
  assert (H : migrate_entity no_iso 100 legacy_record
              = (migrated_record, None)) by reflexivity.
  split; [exact H|].
  destruct (migration_converts_legacy no_iso 100 legacy_record
              migrated_record H) as [H1 H2].
  destruct (H1 (VNum 0.1) eq_refl eq_refl) as [Ha Hb].
  destruct (H2 (VNum 20) 20 eq_refl eq_refl eq_refl) as (Hc & Hd & _).
  repeat split; assumption.
Defined.

Lemma migration_stops_at_bad_frequency_witness :
  migrate_entities no_iso 100 [legacy_record] = ([migrated_record], None)
  /\ as_number (VStr "high") = None
  /\ migrate_entities no_iso 100
       ([legacy_record] ++ bad_record :: [legacy_record])
     = ([migrated_record] ++ rename_resistance bad_record :: [legacy_record],
        Some TypeError).
Proof.
  split; [exact sample_migrates|]. split; [reflexivity|].
  exact (migration_stops_at_bad_frequency no_iso 100 [legacy_record]
           [migrated_record] [legacy_record] bad_record (VStr "high")
           sample_migrates eq_refl eq_refl eq_refl).
Defined.

Lemma engineer_well_keyed : well_keyed engineer.
Proof.
  unfold well_keyed, engineer. simpl.
  repeat (constructor; [simpl; intuition discriminate|]). constructor.
Qed.

Lemma legacy_record_well_keyed : well_keyed legacy_record.
Proof.
  unfold well_keyed, legacy_record. simpl.
  repeat (constructor; [simpl; intuition discriminate|]). constructor.
Qed.

Lemma agent_node_own_keys_win_witness :
  exists node,
    well_keyed engineer
    /\ agent_node engineer = inr node
    /\ dict_get "name" node = Some (VStr "ThroneOfTheEngineer")
    /\ dict_get "type" node = Some (VStr "throne").
Proof.
  destruct (agent_node engineer) as [x | node] eqn:E;
    [vm_compute in E; discriminate E|].
  exists node. split; [exact engineer_well_keyed|]. split; [reflexivity|].
  destruct (agent_node_own_keys_win engineer node engineer_well_keyed E)
    as (_ & Hname & Htype & _).
  split; [exact Hname | exact (Htype eq_refl)].
Defined.

Lemma entity_node_own_keys_win_witness :
  exists node,
    well_keyed legacy_record
    /\ entity_node legacy_record = inr node
    /\ dict_get "strain" node = Some (VNum 0.9)
    /\ dict_get "entityType" node = Some (VStr "concept_type").
Proof.
  destruct (entity_node legacy_record) as [x | node] eqn:E;
    [vm_compute in E; discriminate E|].
  exists node. split; [exact legacy_record_well_keyed|].
  split; [reflexivity|].
  destruct (entity_node_own_keys_win legacy_record node
              legacy_record_well_keyed E) as (_ & Hs & Ht & _).
  split; [exact (Hs eq_refl) | exact (Ht eq_refl)].
Defined.

(** ** What the response of process_prompt reports *)

Section ResponseFacts.

Variable source : nat -> Q.
Hypothesis source_unit : unit_interval source.

Lemma dissonance_step_reports (e : entity) (n : nat) :
  let '(e', cs, _) := dissonance_step source e n in
  Forall (fun c => reported_change c /\ sc_entity_id c = id e'
                   /\ strain_amplitude e' = Some (sc_new_strain c)) cs
  /\ (List.length cs <= 1)%nat.
Proof.
  unfold dissonance_step, uniform, random.
  destruct (Qltb (source n) 0.05).
  - split; [|simpl; lia]. constructor; [|constructor].
    split; [|split; reflexivity].
    unfold reported_change. cbn.
    destruct (source_unit (S n)) as [Hlo Hhi].
    split; [|split]; [reflexivity | lra | lra].
  - split; [constructor | simpl; lia].
Qed.

Lemma dissonance_loop_reports (es : list entity) (n : nat) :
  let '(es', cs, _) := dissonance_loop source es n in
  Forall (fun c => reported_change c
                   /\ exists e', In e' es' /\ sc_entity_id c = id e'
                                 /\ strain_amplitude e'
                                    = Some (sc_new_strain c)) cs
  /\ (List.length cs <= List.length es)%nat.
Proof.
  revert n. induction es as [|e r IH]; intro n; simpl.
  - split; [constructor | lia].
  - pose proof (dissonance_step_reports e n) as Hs.
    destruct (dissonance_step source e n) as [[e' c] n1].
    specialize (IH n1).
    destruct (dissonance_loop source r n1) as [[r' cs] n2].
    destruct Hs as [Hs1 Hs2], IH as [IH1 IH2].
    split; [|rewrite length_app; lia].
    apply Forall_app. split.
    + eapply Forall_impl; [|exact Hs1].
      intros c0 (H1 & H2 & H3). split; [exact H1|].
      exists e'. split; [left; reflexivity | split; assumption].
    + eapply Forall_impl; [|exact IH1].
      intros c0 (H1 & e0 & H2 & H3). split; [exact H1|].
      exists e0. split; [right; exact H2 | exact H3].
Qed.

(** X21: the strain changes [process_prompt] reports.  There are at most
    five; each is an increase by at least 0.1 and less than 0.2, and the
    reported new strain is the amplitude the node of that id has in the
    store when the call returns. *)
Theorem reported_strain_changes (prompt : string) (now : Q) (w w' : world)
    (resp : response) :
  process_prompt source prompt now w = (Ok resp, w') ->
  (List.length (strain_changes resp) <= 5)%nat
  /\ Forall
       (fun c =>
          reported_change c
          /\ exists e', In e' (entities (vis w'))
                        /\ id e' = sc_entity_id c
                        /\ strain_amplitude e' = Some (sc_new_strain c))
       (strain_changes resp).
Proof.
  unfold process_prompt.
  destruct (word_loop source now (split (lower prompt)) (entities (vis w))
              [] (drawn w)) as [[created | x] [es n]]; [|discriminate].
  destruct (connect_loop source 0 _ es n) as [rels n1].
  pose proof (dissonance_loop_reports (firstn 5 es) n1) as Hd.
  destruct (dissonance_loop source (firstn 5 es) n1) as [[head changes] n2].
  intro H. injection H as <- <-.
  cbn [strain_changes entities vis with_entities].
  destruct Hd as [Hd1 Hd2]. rewrite length_firstn in Hd2.
  split; [lia|].
  eapply Forall_impl; [|exact Hd1].
  intros c (H1 & e' & H2 & H3 & H4). split; [exact H1|].
  exists e'. split; [apply in_or_app; left; exact H2|].
  split; [symmetry; exact H3 | exact H4].
Qed.

(** *** Relationships *)

Lemma connect_row_links (i : nat) (entity1 : entity) (j : nat)
    (es : list entity) (n : nat) :
  Forall
    (fun r =>
       reported_link r /\ nr_from_entity r = id entity1
       /\ exists k e2, nth_error es k = Some e2 /\ (j + k)%nat <> i
                       /\ nr_to_entity r = id e2)
    (fst (connect_row source i entity1 j es n)).
Proof.
  revert j n. induction es as [|entity2 r IH]; intros j n; simpl;
    [constructor|].
  assert (Hshift : forall rels,
    Forall
      (fun r0 =>
         reported_link r0 /\ nr_from_entity r0 = id entity1
         /\ exists k e2, nth_error r k = Some e2 /\ (S j + k)%nat <> i
                         /\ nr_to_entity r0 = id e2) rels ->
    Forall
      (fun r0 =>
         reported_link r0 /\ nr_from_entity r0 = id entity1
         /\ exists k e2, nth_error (entity2 :: r) k = Some e2
                         /\ (j + k)%nat <> i /\ nr_to_entity r0 = id e2)
      rels).
  { intros rels H. eapply Forall_impl; [|exact H].
    intros r0 (H1 & H2 & k & e2 & H3 & H4 & H5).
    split; [exact H1|]. split; [exact H2|].
    exists (S k), e2. split; [exact H3|]. split; [lia | exact H5]. }
  destruct (Nat.eqb i j) eqn:Eij; [apply Hshift, IH|].
  unfold uniform, random.
  destruct (Qltb (source n) 0.1); [|apply Hshift, IH].
  specialize (IH (S j) (S (S n))).
  destruct (connect_row source i entity1 (S j) r (S (S n))) as [rels n3].
  cbn [fst] in *. constructor; [|apply Hshift, IH].
  split; [|split; [reflexivity|]].
  - unfold reported_link. cbn.
    destruct (source_unit (S n)) as [Hlo Hhi].
    split; [reflexivity|]. split; [reflexivity|]. split; lra.
  - exists 0%nat, entity2. split; [reflexivity|].
    apply Nat.eqb_neq in Eij. split; [lia | reflexivity].
Qed.

Lemma connect_loop_links (i : nat) (recent all : list entity) (n : nat) :
  Forall
    (fun r =>
       reported_link r
       /\ exists p k e1 e2,
            nth_error recent p = Some e1 /\ nth_error all k = Some e2
            /\ k <> (i + p)%nat
            /\ nr_from_entity r = id e1 /\ nr_to_entity r = id e2)
    (fst (connect_loop source i recent all n)).
Proof.
  revert i n. induction recent as [|entity1 rest IH]; intros i n; simpl;
    [constructor|].
  pose proof (connect_row_links i entity1 0 all n) as Hrow.
  destruct (connect_row source i entity1 0 all n) as [row n1].
  specialize (IH (S i) n1).
  destruct (connect_loop source (S i) rest all n1) as [rows n2].
  cbn [fst] in *. apply Forall_app. split.
  - eapply Forall_impl; [|exact Hrow].
    intros r (H1 & H2 & k & e2 & H3 & H4 & H5). split; [exact H1|].
    exists 0%nat, k, entity1, e2. repeat split; try assumption. lia.
  - eapply Forall_impl; [|exact IH].
    intros r (H1 & p & k & e1 & e2 & H2 & H3 & H4 & H5 & H6).
    split; [exact H1|].
    exists (S p), k, e1, e2. repeat split; try assumption. lia.
Qed.

Lemma last_slice_map {A B : Type} (f : A -> B) (k : nat) (l : list A) :
  last_slice k (map f l) = map f (last_slice k l).
Proof.
  unfold last_slice. destruct k; [reflexivity|].
  rewrite length_map. apply skipn_map.
Qed.

Lemma map_id_of_ident (l l' : list entity) :
  map ident l' = map ident l -> map id l' = map id l.
Proof.
  intro H.
  apply (f_equal (map (fun t : string * string * string * string =>
                         fst (fst (fst t))))) in H.
  rewrite !map_map in H. exact H.
Qed.

(** X22: the relationships [process_prompt] reports.  Each one leads from a
    node among the last [len(words)] nodes of the store to a node of the
    store, with a strength of at least 0.1 and less than 0.9; the only
    pairs left out are those where the target's position in the store
    equals the source's position within that last slice. *)
Theorem reported_relationships (prompt : string) (now : Q) (w w' : world)
    (resp : response) :
  process_prompt source prompt now w = (Ok resp, w') ->
  let ids := map id (entities (vis w')) in
  Forall
    (fun r =>
       reported_link r
       /\ exists p k,
            nth_error (last_slice (List.length (split (lower prompt))) ids) p
            = Some (nr_from_entity r)
            /\ nth_error ids k = Some (nr_to_entity r)
            /\ k <> p)
    (new_relationships resp).
Proof.
  intro Hp. cbn zeta.
  pose proof (process_prompt_entities source prompt now w) as Hent.
  rewrite Hp in Hent. cbn [snd] in Hent.
  apply same_but_strain_ident, map_id_of_ident in Hent.
  unfold process_prompt in Hp.
  destruct (word_loop source now (split (lower prompt)) (entities (vis w))
              [] (drawn w)) as [[created | x] [es n]]; [|discriminate].
  pose proof (connect_loop_links 0
                (last_slice (List.length (split (lower prompt))) es) es n)
    as Hl.
  destruct (connect_loop source 0 _ es n) as [rels n1].
  destruct (dissonance_loop source (firstn 5 es) n1) as [[head changes] n2].
  injection Hp as <- <-. cbn [new_relationships fst snd] in *.
  rewrite Hent, last_slice_map.
  eapply Forall_impl; [|exact Hl].
  intros r (H1 & p & k & e1 & e2 & H2 & H3 & H4 & H5 & H6).
  split; [exact H1|]. exists p, k.
  rewrite !nth_error_map, H2, H3, H5, H6. cbn [option_map].
  repeat split. exact H4.
Qed.

End ResponseFacts.

Lemma reported_strain_changes_witness :
  exists resp w',
    unit_interval (const_source 0.01)
    /\ process_prompt (const_source 0.01) "cat" 100 (world_of [n0])
       = (Ok resp, w')
    /\ List.length (strain_changes resp) = 2%nat
    /\ Forall reported_change (strain_changes resp).
Proof.
  assert (Hu : unit_interval (const_source 0.01))
    by (apply const_source_unit; lra).
  destruct (process_prompt (const_source 0.01) "cat" 100 (world_of [n0]))
    as [[resp | x] w'] eqn:E; [|vm_compute in E; discriminate E].
  exists resp, w'. split; [exact Hu|]. split; [reflexivity|].
  destruct (reported_strain_changes (const_source 0.01) Hu "cat" 100
              (world_of [n0]) w' resp E) as [_ H].
  split.
  - vm_compute in E. injection E as <- _. reflexivity.
  - eapply Forall_impl; [|exact H]. intros c [Hc _]. exact Hc.
Defined.

Lemma reported_relationships_witness :
  exists resp w',
    unit_interval (const_source 0.01)
    /\ process_prompt (const_source 0.01) "cat" 100 (world_of [n0])
       = (Ok resp, w')
    /\ Forall reported_link (new_relationships resp).
Proof.
  assert (Hu : unit_interval (const_source 0.01))
    by (apply const_source_unit; lra).
  destruct (process_prompt (const_source 0.01) "cat" 100 (world_of [n0]))
    as [[resp | x] w'] eqn:E; [|vm_compute in E; discriminate E].
  exists resp, w'. split; [exact Hu|]. split; [reflexivity|].
  pose proof (reported_relationships (const_source 0.01) Hu "cat" 100
                (world_of [n0]) w' resp E) as H.
  eapply Forall_impl; [|exact H]. intros r [Hr _]. exact Hr.
Defined.
